(** * crd-payments-job: the PaymentJob operator and the payment worker

    A shallow embedding of [operator/main.py] (the reconciler: workload
    naming, phase derivation, the create handler and the timer handler) and
    of [worker/main.py] (environment configuration and the per-message
    handler of the queue consumer), with the properties of the design
    document stated over them.

    Conventions.
    - A Python [str] is a Rocq [string], one character per code point
      (code points below 256; Kubernetes object names are ASCII).
      [str.encode()] is UTF-8.
    - A Python [dict] with string keys is a [gmap string _]; a missing key
      is [None].  [d.get(k, default)] is [default (d !! k)].
    - [bytes] is a list of integers, each in 0..255.
    - Calls that leave the process (cluster API, database, broker, clock)
      take their answer from an explicit argument, so that every handler is
      a function of its inputs and of what the outside world answered.
    - Exceptions are those of the class [Exception].  A signal that
      interrupts the process ([KeyboardInterrupt]) is modelled at one
      place only, as one of the ways the consumer loop ends in [run]. *)

From Stdlib Require Import ZArith List String Ascii Bool Lia.
From stdpp Require Import gmap strings pretty.
Import ListNotations.

Local Open Scope Z_scope.

(** * SHA-256 (FIPS 180-4), as computed by [hashlib.sha256] *)

Module Sha256.

Definition word_mod : Z := 2 ^ 32.

Definition add32 (a b : Z) : Z := (a + b) mod word_mod.

Definition rotr (n x : Z) : Z :=
  Z.lor (Z.shiftr x n) (Z.shiftl x (32 - n) mod word_mod).

Definition shr (n x : Z) : Z := Z.shiftr x n.

Definition not32 (x : Z) : Z := word_mod - 1 - x.

Definition Ch (x y z : Z) : Z := Z.lxor (Z.land x y) (Z.land (not32 x) z).

Definition Maj (x y z : Z) : Z :=
  Z.lxor (Z.lxor (Z.land x y) (Z.land x z)) (Z.land y z).

Definition bsig0 (x : Z) : Z := Z.lxor (Z.lxor (rotr 2 x) (rotr 13 x)) (rotr 22 x).
Definition bsig1 (x : Z) : Z := Z.lxor (Z.lxor (rotr 6 x) (rotr 11 x)) (rotr 25 x).
Definition ssig0 (x : Z) : Z := Z.lxor (Z.lxor (rotr 7 x) (rotr 18 x)) (shr 3 x).
Definition ssig1 (x : Z) : Z := Z.lxor (Z.lxor (rotr 17 x) (rotr 19 x)) (shr 10 x).

(** The round constants are the first 32 bits of the fractional parts of
    the cube roots of the first 64 primes; the initial hash value takes the
    square roots of the first 8. *)
Definition is_prime (n : Z) : bool :=
  forallb (fun d => negb (n mod Z.of_nat d =? 0)) (seq 2 (Z.to_nat n - 2)).

Definition primes_upto (n : nat) : list Z :=
  List.filter is_prime (map Z.of_nat (seq 2 (n - 1))).

(** The integer cube root of [x], found bit by bit from bit [bits - 1] down. *)
Fixpoint cube_root (bits : nat) (x r : Z) : Z :=
  match bits with
  | O => r
  | S b =>
      let c := r + 2 ^ Z.of_nat b in
      cube_root b x (if c * c * c <=? x then c else r)
  end.

Definition cbrt_fraction32 (p : Z) : Z := cube_root 40 (p * 2 ^ 96) 0 mod word_mod.

Definition sqrt_fraction32 (p : Z) : Z := Z.sqrt (p * 2 ^ 64) mod word_mod.

Definition K : list Z := Eval vm_compute in map cbrt_fraction32 (primes_upto 311).

(** The eight working variables, also the chaining value between blocks. *)
Record hstate : Type := HState {
  ha : Z; hb : Z; hc : Z; hd : Z; he : Z; hf : Z; hg : Z; hh : Z
}.

Definition H0 : hstate :=
  Eval vm_compute in
    match map sqrt_fraction32 (primes_upto 19) with
    | [a; b; c; d; e; f; g; h] => HState a b c d e f g h
    | _ => HState 0 0 0 0 0 0 0 0
    end.

(** Padding: a 1 bit, zeros up to 56 mod 64 bytes, the bit length on 8 bytes. *)
Definition be_bytes (n : nat) (x : Z) : list Z :=
  map (fun i => Z.shiftr x (8 * Z.of_nat i) mod 256) (rev (seq 0 n)).

Definition pad (msg : list Z) : list Z :=
  let len := Z.of_nat (List.length msg) in
  let zeros := Z.to_nat ((55 - len) mod 64) in
  msg ++ [0x80] ++ repeat 0 zeros ++ be_bytes 8 (8 * len).

Fixpoint be_words (bs : list Z) : list Z :=
  match bs with
  | b0 :: b1 :: b2 :: b3 :: rest =>
      (Z.shiftl b0 24 + Z.shiftl b1 16 + Z.shiftl b2 8 + b3) :: be_words rest
  | _ => []
  end.

Fixpoint blocks (fuel : nat) (ws : list Z) : list (list Z) :=
  match fuel, ws with
  | S fuel', _ :: _ => firstn 16 ws :: blocks fuel' (skipn 16 ws)
  | _, _ => []
  end.

(** Message schedule, kept newest word first while it is extended. *)
Fixpoint extend (n : nat) (rw : list Z) : list Z :=
  match n with
  | O => rw
  | S n' =>
      let w := add32 (add32 (ssig1 (nth 1 rw 0)) (nth 6 rw 0))
                     (add32 (ssig0 (nth 14 rw 0)) (nth 15 rw 0)) in
      extend n' (w :: rw)
  end.

Definition schedule (block : list Z) : list Z := rev (extend 48 (rev block)).

Definition round (s : hstate) (kw : Z * Z) : hstate :=
  let '(k, w) := kw in
  let t1 := add32 (add32 (add32 (hh s) (bsig1 (he s))) (Ch (he s) (hf s) (hg s)))
                  (add32 k w) in
  let t2 := add32 (bsig0 (ha s)) (Maj (ha s) (hb s) (hc s)) in
  HState (add32 t1 t2) (ha s) (hb s) (hc s) (add32 (hd s) t1) (he s) (hf s) (hg s).

Definition compress (h : hstate) (block : list Z) : hstate :=
  let s := fold_left round (combine K (schedule block)) h in
  HState (add32 (ha h) (ha s)) (add32 (hb h) (hb s))
         (add32 (hc h) (hc s)) (add32 (hd h) (hd s))
         (add32 (he h) (he s)) (add32 (hf h) (hf s))
         (add32 (hg h) (hg s)) (add32 (hh h) (hh s)).

Definition sha256 (msg : list Z) : hstate :=
  let ws := be_words (pad msg) in
  fold_left compress (blocks (List.length ws) ws) H0.

(** Lower-case hexadecimal, as [hexdigest] prints it. *)
Definition hexdigit (n : Z) : ascii :=
  nth (Z.to_nat (n mod 16))
      (list_ascii_of_string "0123456789abcdef") "0"%char.

Definition hex8 (w : Z) : string :=
  String (hexdigit (Z.shiftr w 28)) (String (hexdigit (Z.shiftr w 24))
  (String (hexdigit (Z.shiftr w 20)) (String (hexdigit (Z.shiftr w 16))
  (String (hexdigit (Z.shiftr w 12)) (String (hexdigit (Z.shiftr w 8))
  (String (hexdigit (Z.shiftr w 4)) (String (hexdigit w) EmptyString))))))).

Definition hexdigest (msg : list Z) : string :=
  let h := sha256 msg in
  (hex8 (ha h) ++ hex8 (hb h) ++ hex8 (hc h) ++ hex8 (hd h) ++
   hex8 (he h) ++ hex8 (hf h) ++ hex8 (hg h) ++ hex8 (hh h))%string.

End Sha256.

(** * Python strings *)

Module Py.

(** [s.encode()]: UTF-8 of a string whose code points are below 256. *)
Definition utf8_of_char (c : ascii) : list Z :=
  let n := Z.of_N (N_of_ascii c) in
  if n <? 128 then [n]
  else [Z.lor 0xC0 (Z.shiftr n 6); Z.lor 0x80 (Z.land n 0x3F)].

Fixpoint encode (s : string) : list Z :=
  match s with
  | EmptyString => []
  | String c s' => utf8_of_char c ++ encode s'
  end.

(** [s[:n]] *)
Fixpoint str_take (n : nat) (s : string) : string :=
  match n, s with
  | S n', String c s' => String c (str_take n' s')
  | _, _ => EmptyString
  end.

(** [b.decode('utf-8')], strict: the code points, or [None] where Python
    raises [UnicodeDecodeError] (a stray or missing continuation byte, an
    overlong form, a surrogate, a value above U+10FFFF). *)
Definition in_range (lo hi b : Z) : bool := (lo <=? b) && (b <=? hi).

Definition cont (b : Z) : bool := in_range 0x80 0xBF b.

Definition low6 (b : Z) : Z := Z.land b 0x3F.

Fixpoint decode_utf8 (bs : list Z) : option (list Z) :=
  match bs with
  | [] => Some []
  | b0 :: r0 =>
      if in_range 0 0x7F b0 then cons b0 <$> decode_utf8 r0
      else if in_range 0xC2 0xDF b0 then
        match r0 with
        | b1 :: r1 =>
            if cont b1
            then cons (Z.shiftl (Z.land b0 0x1F) 6 + low6 b1) <$> decode_utf8 r1
            else None
        | _ => None
        end
      else if in_range 0xE0 0xEF b0 then
        match r0 with
        | b1 :: b2 :: r2 =>
            let lo := if b0 =? 0xE0 then 0xA0 else 0x80 in
            let hi := if b0 =? 0xED then 0x9F else 0xBF in
            if in_range lo hi b1 && cont b2
            then cons (Z.shiftl (Z.land b0 0x0F) 12 + Z.shiftl (low6 b1) 6 + low6 b2)
                   <$> decode_utf8 r2
            else None
        | _ => None
        end
      else if in_range 0xF0 0xF4 b0 then
        match r0 with
        | b1 :: b2 :: b3 :: r3 =>
            let lo := if b0 =? 0xF0 then 0x90 else 0x80 in
            let hi := if b0 =? 0xF4 then 0x8F else 0xBF in
            if in_range lo hi b1 && cont b2 && cont b3
            then cons (Z.shiftl (Z.land b0 0x07) 18 + Z.shiftl (low6 b1) 12
                       + Z.shiftl (low6 b2) 6 + low6 b3)
                   <$> decode_utf8 r3
            else None
        | _ => None
        end
      else None
  end.

(** Truth value of a string: the empty string is false. *)
Definition truthy_str (s : string) : bool :=
  match s with EmptyString => false | _ => true end.

(** [int(s)] on a string, base 10: white space around, an optional sign,
    then digits, single underscores allowed between two digits; [None]
    where Python raises [ValueError], which includes a number of more
    than 4300 digits (the default limit of CPython on decimal
    conversion). *)
Definition is_space (c : ascii) : bool :=
  let n := N_of_ascii c in
  ((9 <=? n) && (n <=? 13) || (n =? 32) || (n =? 133) || (n =? 160))%N.

Fixpoint lstrip (s : string) : string :=
  match s with
  | String c s' => if is_space c then lstrip s' else s
  | EmptyString => EmptyString
  end.

Fixpoint rstrip (s : string) : string :=
  match s with
  | String c s' =>
      match rstrip s' with
      | EmptyString => if is_space c then EmptyString else String c EmptyString
      | rest => String c rest
      end
  | EmptyString => EmptyString
  end.

Definition digit_value (c : ascii) : option Z :=
  let n := N_of_ascii c in
  if ((48 <=? n) && (n <=? 57))%N then Some (Z.of_N n - 48) else None.

(** The digits, read from the left: the value so far, the number of
    digits so far, and whether the last character was a digit. *)
Fixpoint scan_digits (acc : Z) (count : nat) (after_digit : bool) (s : string)
    : option (Z * nat) :=
  match s with
  | EmptyString => if after_digit then Some (acc, count) else None
  | String c s' =>
      match digit_value c with
      | Some d => scan_digits (10 * acc + d) (S count) true s'
      | None =>
          if Ascii.eqb c "_" && after_digit then scan_digits acc count false s'
          else None
      end
  end.

Definition int_max_str_digits : nat := 4300.

Definition split_sign (s : string) : bool * string :=
  match s with
  | String c s' =>
      if Ascii.eqb c "-" then (true, s')
      else if Ascii.eqb c "+" then (false, s')
      else (false, s)
  | EmptyString => (false, s)
  end.

Definition int (s : string) : option Z :=
  let '(negative, digits) := split_sign (rstrip (lstrip s)) in
  match scan_digits 0 0 false digits with
  | Some (value, count) =>
      if (count <=? int_max_str_digits)%nat
      then Some (if negative then - value else value)
      else None
  | None => None
  end.

End Py.

(** * The operator ([operator/main.py]) *)

Module Operator.

(** ** Workload naming *)

(** [get_job_name]: the PaymentJob name prefixed with "paymentjob-", cut to
    54 characters, followed by the first 8 hex digits of the SHA-256 of
    "<namespace>/<name>". *)
Definition get_job_name (paymentjob_name namespace : string) : string :=
  let hash_input := namespace +:+ "/" +:+ paymentjob_name in
  let short_hash := Py.str_take 8 (Sha256.hexdigest (Py.encode hash_input)) in
  let base_name := "paymentjob-" +:+ paymentjob_name in
  let base_name :=
    if (54 <? String.length base_name)%nat then Py.str_take 54 base_name
    else base_name in
  base_name +:+ "-" +:+ short_hash.

(** ** The cluster API, as far as the handlers read it *)

Record V1JobCondition : Type := {
  cond_type : string;
  cond_status : string;
  cond_message : option string
}.

(** [V1JobStatus]: every counter is an optional integer. *)
Record V1JobStatus : Type := {
  active : option Z;
  succeeded : option Z;
  failed : option Z;
  conditions : option (list V1JobCondition)
}.

(** The answer of an API call: a value, or [ApiException] with its HTTP
    status and reason. *)
Inductive api_result (A : Type) : Type :=
| ApiOk (a : A)
| ApiException (status : Z) (reason : string).
Arguments ApiOk {A} a.
Arguments ApiException {A} status reason.

(** [c and c > 0] on an optional counter: [None] and [0] are false. *)
Definition counter_pos (c : option Z) : bool :=
  match c with
  | None => false
  | Some n => negb (n =? 0) && (n >? 0)
  end.

Inductive kopf_event : Type :=
| KopfInfo (reason message : string)
| KopfWarn (reason message : string).

(** ** Status dictionaries *)

(** [update_paymentjob_status]: the status dictionary returned by the
    create handler. *)
Definition update_paymentjob_status (phase : string) (now : string)
    (job_name message : option string) : gmap string string :=
  let status : gmap string string :=
    <["lastUpdateTime" := now]> (<["phase" := phase]> ∅) in
  let status :=
    match job_name with
    | Some j => if Py.truthy_str j then <["jobName" := j]> status else status
    | None => status
    end in
  match message with
  | Some m => if Py.truthy_str m then <["message" := m]> status else status
  | None => status
  end.

(** ** The create handler *)

(** Phase of a workload that already exists, as [create_paymentjob] reads
    it (lines 245-251). *)
Definition create_phase (js : V1JobStatus) : string :=
  if counter_pos (active js) then "Running"
  else if counter_pos (succeeded js) then "Succeeded"
  else if counter_pos (failed js) then "Failed"
  else "Pending".

(** What the create handler did: the exception it let through, or the
    status it returned, the workload it created (by name) and its events. *)
Inductive create_result : Type :=
| CreateRaised (status : Z)
| CreateDone (status : gmap string string) (created : option string)
             (events : list kopf_event).

(** [create_paymentjob].  [read] answers [read_namespaced_job], [create]
    answers [create_namespaced_job] for the job built by [build_job_spec]. *)
Definition create_paymentjob (name namespace : string)
    (read : string -> string -> api_result V1JobStatus)
    (create : string -> string -> api_result unit)
    (now : string) : create_result :=
  let job_name := get_job_name name namespace in
  match read job_name namespace with
  | ApiOk existing =>
      CreateDone
        (update_paymentjob_status (create_phase existing) now (Some job_name) None)
        None []
  | ApiException st _ =>
      if negb (st =? 404) then CreateRaised st
      else
        match create namespace job_name with
        | ApiOk _ =>
            CreateDone
              (update_paymentjob_status "Pending" now (Some job_name)
                 (Some ("Job " +:+ job_name +:+ " created")))
              (Some job_name)
              [KopfInfo "JobCreated" ("Created Job " +:+ job_name)]
        | ApiException _ reason =>
            CreateDone
              (update_paymentjob_status "Failed" now (Some job_name)
                 (Some ("Failed to create Job: " +:+ reason)))
              None []
        end
  end.

(** ** The timer handler *)

(** Message of the first condition with type "Failed" and status "True"
    ([condition.message or 'Job failed']). *)
Fixpoint failed_condition_message (cs : list V1JobCondition) : option string :=
  match cs with
  | [] => None
  | c :: cs' =>
      if String.eqb (cond_type c) "Failed" && String.eqb (cond_status c) "True"
      then match cond_message c with
           | Some m => if Py.truthy_str m then Some m else Some "Job failed"
           | None => Some "Job failed"
           end
      else failed_condition_message cs'
  end.

Definition truthy_opt_str (m : option string) : bool :=
  match m with Some s => Py.truthy_str s | None => false end.

(** Phase and message derived from the workload status (lines 337-355). *)
Definition timer_phase (js : V1JobStatus) : string :=
  if counter_pos (succeeded js) then "Succeeded"
  else if counter_pos (failed js) then "Failed"
  else if counter_pos (active js) then "Running"
  else "Pending".

Definition timer_message (js : V1JobStatus) : option string :=
  if counter_pos (succeeded js) then Some "Job completed successfully"
  else if counter_pos (failed js) then
    let message :=
      match conditions js with
      | Some (c :: cs) => failed_condition_message (c :: cs)
      | _ => None
      end in
    if truthy_opt_str message then message
    else Some ("Job failed after " +:+ pretty (default 0 (failed js))
               +:+ " attempt(s)")
  else if counter_pos (active js) then
    Some ("Job is running (" +:+ pretty (default 0 (active js))
          +:+ " active pod(s))")
  else Some "Waiting for pod to start".

(** The name under which the timer looks the workload up: the recorded
    [jobName] when there is one, else the derived name. *)
Definition timer_job_name (name namespace : string)
    (status : gmap string string) : string :=
  match status !! "jobName" with
  | Some j => if Py.truthy_str j then j else get_job_name name namespace
  | None => get_job_name name namespace
  end.

(** [status.get('phase', 'Pending')] *)
Definition current_phase (status : gmap string string) : string :=
  default "Pending" (status !! "phase").

Inductive timer_result : Type :=
| TimerRaised (status : Z)
| TimerDone (patch : gmap string string) (events : list kopf_event).

(** [monitor_job_status].  [now1] and [now2] are the two clock readings
    (for [lastUpdateTime] and for the start or completion stamp). *)
Definition monitor_job_status (name namespace : string)
    (status : gmap string string)
    (read : string -> string -> api_result V1JobStatus)
    (now1 now2 : string) : timer_result :=
  let job_name := timer_job_name name namespace status in
  match read job_name namespace with
  | ApiException st _ =>
      if st =? 404 then TimerDone ∅ [] else TimerRaised st
  | ApiOk job_status =>
      let current_phase := current_phase status in
      let new_phase := timer_phase job_status in
      let message := timer_message job_status in
      if negb (String.eqb new_phase current_phase) then
        let patch : gmap string string := <["phase" := new_phase]> ∅ in
        let patch := <["lastUpdateTime" := now1]> patch in
        let patch := <["jobName" := job_name]> patch in
        let patch :=
          match message with
          | Some m => if Py.truthy_str m then <["message" := m]> patch else patch
          | None => patch
          end in
        let patch :=
          if String.eqb new_phase "Running"
             && negb (truthy_opt_str (status !! "startTime"))
          then <["startTime" := now2]> patch
          else if String.eqb new_phase "Succeeded" || String.eqb new_phase "Failed"
          then <["completionTime" := now2]> patch
          else patch in
        let events :=
          if String.eqb new_phase "Succeeded" then
            [KopfInfo "JobSucceeded"
               ("Job " +:+ job_name +:+ " completed successfully")]
          else if String.eqb new_phase "Failed" then
            [KopfWarn "JobFailed"
               (match message with
                | Some m => if Py.truthy_str m then m
                            else "Job " +:+ job_name +:+ " failed"
                | None => "Job " +:+ job_name +:+ " failed"
                end)]
          else [] in
        TimerDone patch events
      else TimerDone ∅ []
  end.

(** ** Successive timer ticks *)

(** What one tick sees of the outside world. *)
Record tick_world : Type := {
  tw_read : string -> string -> api_result V1JobStatus;
  tw_now1 : string;
  tw_now2 : string
}.

(** The status after a tick: the patch is merged into the status (patched
    keys win); a tick that raises patches nothing. *)
Definition tick (name namespace : string) (status : gmap string string)
    (w : tick_world) : gmap string string :=
  match monitor_job_status name namespace status (tw_read w) (tw_now1 w) (tw_now2 w) with
  | TimerDone patch _ => patch ∪ status
  | TimerRaised _ => status
  end.

(** The statuses recorded after each tick of a sequence. *)
Fixpoint run_ticks (name namespace : string) (status : gmap string string)
    (ws : list tick_world) : list (gmap string string) :=
  match ws with
  | [] => []
  | w :: ws' =>
      let status' := tick name namespace status w in
      status' :: run_ticks name namespace status' ws'
  end.

End Operator.

(** * The worker ([worker/main.py]) *)

Module Worker.

(** ** Configuration from the environment *)

(** The exceptions of the module-level code: [int] of a string that is
    not a number, and [int] of [None]. *)
Inductive config_error : Type :=
| ValueError
| TypeError.

(** A value, [sys.exit(code)], or an exception that nothing catches: the
    interpreter prints the traceback and ends the process (with status 1)
    before [main] is called. *)
Inductive exit_or (A : Type) : Type :=
| Value (a : A)
| SysExit (code : Z)
| Uncaught (e : config_error).
Arguments Value {A} a.
Arguments SysExit {A} code.
Arguments Uncaught {A} e.

Definition exit_bind {A B : Type} (x : exit_or A) (f : A -> exit_or B) : exit_or B :=
  match x with
  | Value a => f a
  | SysExit c => SysExit c
  | Uncaught e => Uncaught e
  end.

Notation "x <-! e ;; k" := (exit_bind e (fun x => k))
  (at level 100, e at next level, right associativity).

(** [get_env(name, default, required)]: [os.environ.get(name, default)],
    and exit 1 when the result is [None] and the value is required. *)
Definition get_env (environ : gmap string string) (name : string)
    (default : option string) (required : bool) : exit_or (option string) :=
  let value := match environ !! name with Some v => Some v | None => default end in
  match value with
  | None => if required then SysExit 1 else Value value
  | Some _ => Value value
  end.

(** [int(get_env(name, default))]: [int] raises [ValueError] on a string
    that is not a number and [TypeError] on [None], which [get_env] does
    not return when the value is required. *)
Definition int_env (environ : gmap string string) (name default : string)
    : exit_or Z :=
  value <-! get_env environ name (Some default) true ;;
  match value with
  | Some text =>
      match Py.int text with
      | Some n => Value n
      | None => Uncaught ValueError
      end
  | None => Uncaught TypeError
  end.

(** The value of [MAX_MESSAGES] after lines 46-48: [None] when the variable
    is unset, the empty string when it is set but empty, else [int] of it. *)
Inductive max_messages : Type :=
| MaxNone
| MaxEmpty
| MaxInt (n : Z).

(** [MAX_MESSAGES = os.environ.get('MAX_MESSAGES')], then
    [if MAX_MESSAGES: MAX_MESSAGES = int(MAX_MESSAGES)]. *)
Definition read_max_messages (environ : gmap string string) : exit_or max_messages :=
  match environ !! "MAX_MESSAGES" with
  | None => Value MaxNone
  | Some text =>
      if Py.truthy_str text then
        match Py.int text with
        | Some n => Value (MaxInt n)
        | None => Uncaught ValueError
        end
      else Value MaxEmpty
  end.

(** The module-level constants; the two ports are integers. *)
Record config : Type := {
  RABBITMQ_HOST : option string;
  RABBITMQ_PORT : Z;
  RABBITMQ_USER : option string;
  RABBITMQ_PASS : option string;
  POSTGRES_HOST : option string;
  POSTGRES_PORT : Z;
  POSTGRES_DB : option string;
  POSTGRES_USER : option string;
  POSTGRES_PASS : option string;
  QUEUE_NAME : option string;
  MAX_MESSAGES : max_messages
}.

(** Lines 36-48, in order: the first statement that exits or raises ends
    the process. *)
Definition load_config (environ : gmap string string) : exit_or config :=
  rh <-! get_env environ "RABBITMQ_HOST" (Some "localhost") true ;;
  rp <-! int_env environ "RABBITMQ_PORT" "5672" ;;
  ru <-! get_env environ "RABBITMQ_USER" (Some "guest") true ;;
  rw <-! get_env environ "RABBITMQ_PASS" (Some "guest") true ;;
  ph <-! get_env environ "POSTGRES_HOST" (Some "localhost") true ;;
  pp <-! int_env environ "POSTGRES_PORT" "5432" ;;
  pd <-! get_env environ "POSTGRES_DB" (Some "payments_db") true ;;
  pu <-! get_env environ "POSTGRES_USER" (Some "postgres") true ;;
  pw <-! get_env environ "POSTGRES_PASS" (Some "postgres") true ;;
  qn <-! get_env environ "QUEUE_NAME" (Some "payments") true ;;
  mm <-! read_max_messages environ ;;
  Value {| RABBITMQ_HOST := rh; RABBITMQ_PORT := rp; RABBITMQ_USER := ru;
           RABBITMQ_PASS := rw; POSTGRES_HOST := ph; POSTGRES_PORT := pp;
           POSTGRES_DB := pd; POSTGRES_USER := pu; POSTGRES_PASS := pw;
           QUEUE_NAME := qn; MAX_MESSAGES := mm |}.

(** [MAX_MESSAGES and self.messages_processed >= MAX_MESSAGES] *)
Definition cap_reached (cap : max_messages) (processed : Z) : bool :=
  match cap with
  | MaxInt n => negb (n =? 0) && (n <=? processed)
  | _ => false
  end.

(** ** Exceptions and effects *)

(** The exceptions a delivery can meet, all of them subclasses of
    [Exception]: the two the handler names, the one [bytes.decode] raises,
    and any other ([RecursionError] from [json.loads] on a deeply nested
    text, for instance).  [KeyboardInterrupt] and [SystemExit], which
    [except Exception] does not catch, are not raised by any call of this
    model. *)
Inductive exn : Type :=
| UnicodeDecodeError
| JSONDecodeError
| Psycopg2Error
| OtherException.

(** [except Exception] *)
Definition is_exception (e : exn) : bool := true.

Definition is_psycopg2_error (e : exn) : bool :=
  match e with Psycopg2Error => true | _ => false end.

Definition is_json_decode_error (e : exn) : bool :=
  match e with JSONDecodeError => true | _ => false end.

(** What the handler does to the outside world, in order. *)
Inductive event : Type :=
| EvCommit (delivery_tag : Z) (payment_id : Z)
| EvAck (delivery_tag : Z)
| EvNack (delivery_tag : Z) (requeue : bool)
| EvStopConsuming
| EvReconnect (ok : bool).

(** Where the database fails while a record is inserted, if it does. *)
Inductive db_answer : Type :=
| DbOk
| ExecuteRaises (e : exn)
| CommitRaises (e : exn).

(** What one delivery finds outside the process. *)
Record delivery_world : Type := {
  dw_insert : db_answer;
  dw_reconnect_ok : bool;
  dw_utcnow : Z
}.

(** One delivery: [method.delivery_tag], [properties.message_id], [body]. *)
Record delivery : Type := {
  delivery_tag : Z;
  message_id : option string;
  body : list Z
}.

(** A computation returns a value or raises. *)
Inductive outcome (A : Type) : Type :=
| Ret (a : A)
| Raise (e : exn).
Arguments Ret {A} a.
Arguments Raise {A} e.

Section Pipeline.

(** [json.loads] on the decoded text: the payload, or the exception it
    raises, [JSONDecodeError] on a text that is not JSON. *)
Context {J : Type}.
Variable json_loads : list Z -> outcome J.
Variable cfg : config.

(** A row of the [payments] table. *)
Record payment : Type := {
  id : Z;
  received_at : Z;
  payload : J;
  row_message_id : option string;
  source_queue : option string
}.

(** The worker object, the table behind its connection, the consumer flag
    of the channel and the log of effects. *)
Record wstate : Type := {
  pg_conn : nat;
  payments : list payment;
  payments_id_seq : Z;
  messages_processed : Z;
  consuming : bool;
  log : list event
}.

Definition M (A : Type) : Type := wstate -> outcome A * wstate.

Definition ret {A : Type} (a : A) : M A := fun s => (Ret a, s).

Definition raise {A : Type} (e : exn) : M A := fun s => (Raise e, s).

Definition bind {A B : Type} (m : M A) (f : A -> M B) : M B :=
  fun s =>
    match m s with
    | (Ret a, s') => f a s'
    | (Raise e, s') => (Raise e, s')
    end.

(** [try: body except <handles>: handler]; an exception the clause does
    not name goes on. *)
Definition try_except {A : Type} (body : M A) (handles : exn -> bool)
    (handler : exn -> M A) : M A :=
  fun s =>
    match body s with
    | (Ret a, s') => (Ret a, s')
    | (Raise e, s') => if handles e then handler e s' else (Raise e, s')
    end.

Notation "x <- e ;; k" := (bind e (fun x => k))
  (at level 100, e at next level, right associativity).
Notation "e ;;; k" := (bind e (fun _ => k))
  (at level 100, right associativity).

Definition emit (ev : event) : M unit :=
  fun s =>
    (Ret tt, {| pg_conn := pg_conn s; payments := payments s;
                payments_id_seq := payments_id_seq s;
                messages_processed := messages_processed s;
                consuming := consuming s; log := log s ++ [ev] |}).

(** [ch.basic_ack], [ch.basic_nack], [ch.stop_consuming]: each call is
    recorded in the log and returns normally.  (A broker connection that
    drops ends [start_consuming] itself; that is not part of this model.) *)
Definition basic_ack (tag : Z) : M unit := emit (EvAck tag).

Definition basic_nack (tag : Z) (requeue : bool) : M unit := emit (EvNack tag requeue).

Definition stop_consuming : M unit :=
  fun s =>
    (Ret tt, {| pg_conn := pg_conn s; payments := payments s;
                payments_id_seq := payments_id_seq s;
                messages_processed := messages_processed s;
                consuming := false; log := log s ++ [EvStopConsuming] |}).

(** [cur.execute(insert_sql, ...)] and [cur.fetchone()[0]]: the next value
    of the id sequence, which is spent whether or not the row is committed. *)
Definition execute_insert (w : delivery_world) : M Z :=
  fun s =>
    match dw_insert w with
    | ExecuteRaises e => (Raise e, s)
    | _ =>
        let new_id := payments_id_seq s + 1 in
        (Ret new_id, {| pg_conn := pg_conn s; payments := payments s;
                        payments_id_seq := new_id;
                        messages_processed := messages_processed s;
                        consuming := consuming s; log := log s |})
    end.

(** [conn.commit()]: the row becomes part of the table. *)
Definition commit (w : delivery_world) (tag : Z) (row : payment) : M unit :=
  fun s =>
    match dw_insert w with
    | CommitRaises e => (Raise e, s)
    | _ =>
        (Ret tt, {| pg_conn := pg_conn s; payments := payments s ++ [row];
                    payments_id_seq := payments_id_seq s;
                    messages_processed := messages_processed s;
                    consuming := consuming s;
                    log := log s ++ [EvCommit tag (id row)] |})
    end.

(** [insert_payment(conn, payload, message_id, source_queue)] *)
Definition insert_payment (w : delivery_world) (tag : Z) (payload : J)
    (message_id : option string) (source_queue : option string) : M Z :=
  payment_id <- execute_insert w ;;
  commit w tag {| id := payment_id; received_at := dw_utcnow w;
                  payload := payload; row_message_id := message_id;
                  source_queue := source_queue |} ;;;
  ret payment_id.

(** [self.pg_conn = get_postgres_connection()] inside its own
    [try ... except Exception]. *)
Definition reconnect (w : delivery_world) : M unit :=
  fun s =>
    (Ret tt, {| pg_conn := if dw_reconnect_ok w then S (pg_conn s) else pg_conn s;
                payments := payments s;
                payments_id_seq := payments_id_seq s;
                messages_processed := messages_processed s;
                consuming := consuming s;
                log := log s ++ [EvReconnect (dw_reconnect_ok w)] |}).

Definition count_message : M unit :=
  fun s =>
    (Ret tt, {| pg_conn := pg_conn s; payments := payments s;
                payments_id_seq := payments_id_seq s;
                messages_processed := messages_processed s + 1;
                consuming := consuming s; log := log s |}).

Definition get_messages_processed : M Z := fun s => (Ret (messages_processed s), s).

(** [json.loads(body.decode('utf-8'))] *)
Definition parse_body (body : list Z) : M J :=
  match Py.decode_utf8 body with
  | None => raise UnicodeDecodeError
  | Some text =>
      match json_loads text with
      | Raise e => raise e
      | Ret payload => ret payload
      end
  end.

(** [PaymentWorker.process_message] *)
Definition process_message (w : delivery_world) (d : delivery) : M unit :=
  let message_id :=
    match message_id d with
    | Some m => if Py.truthy_str m then Some m else None
    | None => None
    end in
  let delivery_tag := delivery_tag d in
  try_except
    (try_except
       (parsed <-
          try_except
            (payload <- parse_body (body d) ;; ret (Some payload))
            is_json_decode_error
            (fun _ => basic_nack delivery_tag false ;;; ret None) ;;
        match parsed with
        | None => ret tt
        | Some payload =>
            insert_payment w delivery_tag payload message_id (QUEUE_NAME cfg) ;;;
            basic_ack delivery_tag ;;;
            count_message ;;;
            processed <- get_messages_processed ;;
            if cap_reached (MAX_MESSAGES cfg) processed then stop_consuming
            else ret tt
        end)
       is_psycopg2_error
       (fun _ => basic_nack delivery_tag true ;;; reconnect w))
    is_exception
    (fun _ => basic_nack delivery_tag true).

(** The consumer loop: the callback runs on each delivery of the stream, in
    order, until the channel stops consuming.  The result is the final
    state and the deliveries that were never handed to the callback. *)
Fixpoint start_consuming (stream : list (delivery * delivery_world)) (s : wstate)
    : wstate * list (delivery * delivery_world) :=
  match stream with
  | [] => (s, [])
  | (d, w) :: rest =>
      if consuming s then start_consuming rest (snd (process_message w d s))
      else (s, stream)
  end.

(** A fresh worker ([__init__], then [basic_consume]) on a given table. *)
Definition init (rows : list payment) (seq : Z) : wstate :=
  {| pg_conn := 0; payments := rows; payments_id_seq := seq;
     messages_processed := 0; consuming := true; log := [] |}.

End Pipeline.

End Worker.

(** * Vocabulary of the properties *)

Module Props.

Import Operator.

(** ** Workload names *)

Definition is_hex_char (c : ascii) : bool :=
  existsb (Ascii.eqb c) (list_ascii_of_string "0123456789abcdef").

Fixpoint all_hex (s : string) : bool :=
  match s with
  | EmptyString => true
  | String c s' => is_hex_char c && all_hex s'
  end.

(** ** Phases *)

(** The Phase Deriver in the words of the design document: the first
    counter above zero wins, in the order succeeded, failed, active. *)
Definition count (c : option Z) : Z := default 0 c.

Definition priority_phase (js : V1JobStatus) : string :=
  if 0 <? count (succeeded js) then "Succeeded"
  else if 0 <? count (failed js) then "Failed"
  else if 0 <? count (active js) then "Running"
  else "Pending".

(** Pending < Running < {Succeeded, Failed}; the two terminal phases are
    not comparable with each other. *)
Definition phase_rank (p : string) : nat :=
  if String.eqb p "Running" then 1
  else if String.eqb p "Succeeded" || String.eqb p "Failed" then 2
  else 0.

Definition phase_le (p q : string) : Prop :=
  p = q \/ (phase_rank p < phase_rank q)%nat.

Fixpoint nondecreasing_from (p : string) (l : list string) : Prop :=
  match l with
  | [] => True
  | q :: l' => phase_le p q /\ nondecreasing_from q l'
  end.

(** The phases derived from what the ticks of [ws] read of the workload;
    a tick that does not get the workload derives none. *)
Fixpoint observed_phases (job_name namespace : string) (ws : list tick_world)
    : list string :=
  match ws with
  | [] => []
  | w :: ws' =>
      match tw_read w job_name namespace with
      | ApiOk js => timer_phase js :: observed_phases job_name namespace ws'
      | ApiException _ _ => observed_phases job_name namespace ws'
      end
  end.

(** The phases recorded after each tick. *)
Definition recorded_phases (name namespace : string)
    (status : gmap string string) (ws : list tick_world) : list string :=
  map current_phase (run_ticks name namespace status ws).

(** The phase each tick of [ws] leaves when nothing but the readings
    decides it: the phase derived from the counters when the tick gets the
    workload, the phase before the tick when it does not. *)
Fixpoint derived_phases (phase job_name namespace : string) (ws : list tick_world)
    : list string :=
  match ws with
  | [] => []
  | w :: ws' =>
      let phase' :=
        match tw_read w job_name namespace with
        | ApiOk js => timer_phase js
        | ApiException _ _ => phase
        end in
      phase' :: derived_phases phase' job_name namespace ws'
  end.

(** A cluster in which the workload has the given status, and one in which
    it does not exist. *)
Definition job_with (js : V1JobStatus) : string -> string -> api_result V1JobStatus :=
  fun _ _ => ApiOk js.

Definition no_job : string -> string -> api_result V1JobStatus :=
  fun _ _ => ApiException 404 "Not Found".

Definition counters (a s f : option Z) : V1JobStatus :=
  {| active := a; succeeded := s; failed := f; conditions := None |}.

Definition tick_at (js : V1JobStatus) (now : string) : tick_world :=
  {| tw_read := job_with js; tw_now1 := now; tw_now2 := now |}.

Import Worker.

(** ** The delivery pipeline *)

Definition is_ack (e : event) : bool :=
  match e with EvAck _ => true | _ => false end.

Definition is_nack (e : event) : bool :=
  match e with EvNack _ _ => true | _ => false end.

Definition is_commit (e : event) : bool :=
  match e with EvCommit _ _ => true | _ => false end.

Definition count_acks (l : list event) : Z :=
  Z.of_nat (List.length (List.filter is_ack l)).

(** Every acknowledgement in the log comes after a commit made for the
    same delivery. *)
Definition acks_follow_commits (l : list event) : Prop :=
  forall pre tag post,
    l = pre ++ EvAck tag :: post -> exists pid, In (EvCommit tag pid) pre.

(** The body decodes and [json.loads] accepts the text. *)
Definition parses {J : Type} (json_loads : list Z -> outcome J) (d : delivery) : bool :=
  match Py.decode_utf8 (body d) with
  | Some text => match json_loads text with Ret _ => true | Raise _ => false end
  | None => false
  end.

(** The body parses and the database takes the row. *)
Definition persistable {J : Type} (json_loads : list Z -> outcome J)
    (dw : delivery * delivery_world) : bool :=
  parses json_loads (fst dw)
  && match dw_insert (snd dw) with DbOk => true | _ => false end.

Definition count_persistable {J : Type} (json_loads : list Z -> outcome J)
    (stream : list (delivery * delivery_world)) : Z :=
  Z.of_nat (List.length (List.filter (persistable json_loads) stream)).

(** The cap as the handler reads it: [None], the empty string and 0 are
    all false and set no limit. *)
Definition no_cap (m : max_messages) : Prop :=
  m = MaxNone \/ m = MaxEmpty \/ m = MaxInt 0.

(** The values used in the examples: a parser that reads the text {} and
    refuses any other, the default configuration with a given cap, a
    database that takes the row, and deliveries with the bodies [{}] and
    [{] . *)
Definition loads_braces (text : list Z) : outcome unit :=
  if bool_decide (text = [123; 125]) then Ret tt else Raise JSONDecodeError.

Definition config_with (cap : max_messages) : config :=
  {| RABBITMQ_HOST := Some "localhost"; RABBITMQ_PORT := 5672;
     RABBITMQ_USER := Some "guest"; RABBITMQ_PASS := Some "guest";
     POSTGRES_HOST := Some "localhost"; POSTGRES_PORT := 5432;
     POSTGRES_DB := Some "payments_db"; POSTGRES_USER := Some "postgres";
     POSTGRES_PASS := Some "postgres"; QUEUE_NAME := Some "payments";
     MAX_MESSAGES := cap |}.

Definition db_ok : delivery_world :=
  {| dw_insert := DbOk; dw_reconnect_ok := true; dw_utcnow := 1700000000 |}.

Definition good (tag : Z) : delivery * delivery_world :=
  ({| delivery_tag := tag; message_id := None; body := [123; 125] |}, db_ok).

Definition malformed (tag : Z) : delivery * delivery_world :=
  ({| delivery_tag := tag; message_id := None; body := [123] |}, db_ok).

(** The names of the configuration values the process reads with
    [get_env]. *)
Definition config_variables : list string :=
  ["RABBITMQ_HOST"; "RABBITMQ_PORT"; "RABBITMQ_USER"; "RABBITMQ_PASS";
   "POSTGRES_HOST"; "POSTGRES_PORT"; "POSTGRES_DB"; "POSTGRES_USER";
   "POSTGRES_PASS"; "QUEUE_NAME"]%string.

End Props.

(** * The workload builder ([build_job_spec]) *)

Module Workload.

Import Operator.

Definition API_GROUP : string := "payments.example.com".
Definition API_VERSION : string := "v1alpha1".

(** The PaymentJob spec, as the schema of the resource admits it: the
    required keys are present, the optional ones ([maxMessages] and the two
    ports) may be missing, ports and [maxMessages] are integers. *)
Record rabbitmq_spec : Type := {
  rmq_host : string;
  rmq_port : option Z;
  rmq_secret_name : string
}.

Record postgres_spec : Type := {
  pg_host : string;
  pg_port : option Z;
  pg_database : string;
  pg_secret_name : string
}.

Record paymentjob_spec : Type := {
  image : string;
  queueName : string;
  maxMessages : option Z;
  rabbitmq : rabbitmq_spec;
  postgres : postgres_spec
}.

Record V1SecretKeySelector : Type := {
  secret_name : string;
  secret_key : string
}.

(** [V1EnvVar]: a name with a literal value or a reference into a secret. *)
Record V1EnvVar : Type := {
  env_name : string;
  env_value : option string;
  env_value_from : option V1SecretKeySelector
}.

Definition env_literal (name value : string) : V1EnvVar :=
  {| env_name := name; env_value := Some value; env_value_from := None |}.

Definition env_secret (name secret key : string) : V1EnvVar :=
  {| env_name := name; env_value := None;
     env_value_from := Some {| secret_name := secret; secret_key := key |} |}.

Record V1OwnerReference : Type := {
  owner_api_version : string;
  owner_kind : string;
  owner_name : string;
  owner_uid : string;
  owner_controller : bool;
  owner_block_owner_deletion : bool
}.

Record V1Container : Type := {
  container_name : string;
  container_image : string;
  image_pull_policy : string;
  env : list V1EnvVar;
  requests : gmap string string;
  limits : gmap string string
}.

Record V1Job : Type := {
  api_version : string;
  kind : string;
  job_name : string;
  job_namespace : string;
  job_labels : gmap string string;
  owner_references : list V1OwnerReference;
  pod_labels : gmap string string;
  containers : list V1Container;
  restart_policy : string;
  backoff_limit : Z;
  ttl_seconds_after_finished : Z
}.

(** The environment of the worker container (lines 70-130). *)
Definition build_env (spec : paymentjob_spec) : list V1EnvVar :=
  let rabbitmq := rabbitmq spec in
  let postgres := postgres spec in
  let env_vars :=
    [ env_literal "QUEUE_NAME" (queueName spec);
      env_literal "RABBITMQ_HOST" (rmq_host rabbitmq);
      env_literal "RABBITMQ_PORT" (pretty (default 5672 (rmq_port rabbitmq)));
      env_secret "RABBITMQ_USER" (rmq_secret_name rabbitmq) "username";
      env_secret "RABBITMQ_PASS" (rmq_secret_name rabbitmq) "password";
      env_literal "POSTGRES_HOST" (pg_host postgres);
      env_literal "POSTGRES_PORT" (pretty (default 5432 (pg_port postgres)));
      env_literal "POSTGRES_DB" (pg_database postgres);
      env_secret "POSTGRES_USER" (pg_secret_name postgres) "username";
      env_secret "POSTGRES_PASS" (pg_secret_name postgres) "password" ] in
  match maxMessages spec with
  | Some max_messages => env_vars ++ [env_literal "MAX_MESSAGES" (pretty max_messages)]
  | None => env_vars
  end.

(** [build_job_spec(name, namespace, spec, owner_reference)] *)
Definition build_job_spec (name namespace : string) (spec : paymentjob_spec)
    (owner_reference_name owner_reference_uid : string) : V1Job :=
  let job_name := get_job_name name namespace in
  let labels : gmap string string :=
    <["managed-by" := "paymentjob-operator"]>
      (<["paymentjob" := name]> (<["app" := "payment-worker"]> ∅)) in
  let container :=
    {| container_name := "payment-worker";
       container_image := image spec;
       image_pull_policy := "IfNotPresent";
       env := build_env spec;
       requests := <["memory" := "128Mi"]> (<["cpu" := "100m"]> ∅);
       limits := <["memory" := "256Mi"]> (<["cpu" := "500m"]> ∅) |} in
  {| api_version := "batch/v1";
     kind := "Job";
     job_name := job_name;
     job_namespace := namespace;
     job_labels := labels;
     owner_references :=
       [ {| owner_api_version := API_GROUP +:+ "/" +:+ API_VERSION;
            owner_kind := "PaymentJob";
            owner_name := owner_reference_name;
            owner_uid := owner_reference_uid;
            owner_controller := true;
            owner_block_owner_deletion := true |} ];
     pod_labels := labels;
     containers := [container];
     restart_policy := "OnFailure";
     backoff_limit := 3;
     ttl_seconds_after_finished := 300 |}.

(** How the cluster turns the env list of a container into the process
    environment: a literal is taken as it is, a secret reference is looked
    up in the secrets of the namespace, and the container does not start
    ([None]) when a referenced key is missing.  A later entry of the same
    name replaces an earlier one. *)
Definition resolve_var (secrets : string -> string -> option string)
    (e : V1EnvVar) : option string :=
  match env_value_from e with
  | Some ref => secrets (secret_name ref) (secret_key ref)
  | None => Some (default "" (env_value e))
  end.

Fixpoint container_environ (secrets : string -> string -> option string)
    (vars : list V1EnvVar) (environ : gmap string string)
    : option (gmap string string) :=
  match vars with
  | [] => Some environ
  | e :: vars' =>
      match resolve_var secrets e with
      | Some v => container_environ secrets vars' (<[env_name e := v]> environ)
      | None => None
      end
  end.

End Workload.

(** * The create handler against a cluster *)

Module Cluster.

Import Operator.

(** The Jobs of a cluster, by namespace and name, with their status. *)
Definition read_namespaced_job (jobs : gmap (string * string) V1JobStatus)
    (name namespace : string) : api_result V1JobStatus :=
  match jobs !! (namespace, name) with
  | Some js => ApiOk js
  | None => ApiException 404 "Not Found"
  end.

(** Creation is refused (409) when a Job of that name exists. *)
Definition create_namespaced_job (jobs : gmap (string * string) V1JobStatus)
    (namespace name : string) : api_result unit :=
  match jobs !! (namespace, name) with
  | Some _ => ApiException 409 "Conflict"
  | None => ApiOk tt
  end.

(** A Job that was just created has no counter yet. *)
Definition new_job_status : V1JobStatus :=
  {| active := None; succeeded := None; failed := None; conditions := None |}.

(** One run of [create_paymentjob] against the cluster, and the cluster it
    leaves. *)
Definition create_on (jobs : gmap (string * string) V1JobStatus)
    (name namespace now : string)
    : create_result * gmap (string * string) V1JobStatus :=
  let result :=
    create_paymentjob name namespace (read_namespaced_job jobs)
      (create_namespaced_job jobs) now in
  (result,
   match result with
   | CreateDone _ (Some created) _ => <[(namespace, created) := new_job_status]> jobs
   | _ => jobs
   end).

End Cluster.

(** * Start and end of the worker *)

Module Startup.

(** What one connection attempt meets: a connection, the error the loop
    retries ([psycopg2.OperationalError] for the database,
    [AMQPConnectionError] for the broker), or any other exception. *)
Inductive connect_answer : Type :=
| Connected
| Refused
| Crashed.

Inductive service : Type :=
| Postgres
| RabbitMQ.

(** The calls the worker makes, in order; a call is listed whether it
    returns or raises. *)
Inductive startup_event : Type :=
| Attempt (svc : service) (attempt : nat)
| Sleep (seconds : Z)
| RunMigrations
| OpenChannel
| QueueDeclare (queue : option string) (durable : bool)
| BasicQos (prefetch_count : Z)
| BasicConsume (queue : option string) (auto_ack : bool)
| StartConsuming
| StopConsuming
| CloseRabbitMQ
| ClosePostgres.

Inductive retry_result : Type :=
| GotConnection (attempt : nat)
| RaisedRefused
| RaisedOther
| LoopEnded.

Definition retry_delay : Z := 5.

(** [for attempt in range(attempt, max_retries + 1)]: try to connect; on
    the retried error sleep and go on, or raise it at the last attempt.
    [remaining] counts the iterations left. *)
Fixpoint retry_loop (svc : service) (max_retries remaining attempt : nat)
    (answers : nat -> connect_answer) : list startup_event * retry_result :=
  match remaining with
  | O => ([], LoopEnded)
  | S remaining' =>
      match answers attempt with
      | Connected => ([Attempt svc attempt], GotConnection attempt)
      | Crashed => ([Attempt svc attempt], RaisedOther)
      | Refused =>
          if (attempt <? max_retries)%nat then
            let '(events, result) :=
              retry_loop svc max_retries remaining' (S attempt) answers in
            (Attempt svc attempt :: Sleep retry_delay :: events, result)
          else ([Attempt svc attempt], RaisedRefused)
      end
  end.

(** The two loops of the worker: [max_retries = 10], attempts 1 to 10. *)
Definition connect_with_retries (svc : service) (answers : nat -> connect_answer)
    : list startup_event * retry_result :=
  retry_loop svc 10 10 1 answers.

(** What [setup] finds outside the process: the answers to the connection
    attempts, and whether [run_migrations], [rmq_conn.channel()],
    [queue_declare] and [basic_qos] return ([true]) or raise. *)
Record startup_world : Type := {
  postgres_answers : nat -> connect_answer;
  migrations_ok : bool;
  rabbitmq_answers : nat -> connect_answer;
  channel_ok : bool;
  queue_declare_ok : bool;
  basic_qos_ok : bool
}.

(** The connections held by the worker: absent, or present with its
    [is_open] (broker) or [closed] (database) flag. *)
Record connections : Type := {
  rmq_conn : option bool;
  pg_conn : option bool
}.

Inductive setup_result : Type :=
| SetupDone (conns : connections)
| SetupRaised (conns : connections).

(** [PaymentWorker.setup]: apart from the errors the two connection
    loops retry, nothing is caught, so the first call that raises ends
    it.  The result holds the connections made so far, each with the flag
    it has when it is made. *)
Definition setup (queue_name : option string) (w : startup_world)
    : list startup_event * setup_result :=
  let none := {| rmq_conn := None; pg_conn := None |} in
  match connect_with_retries Postgres (postgres_answers w) with
  | (ev_pg, GotConnection _) =>
      let with_pg := {| rmq_conn := None; pg_conn := Some false |} in
      if migrations_ok w then
        match connect_with_retries RabbitMQ (rabbitmq_answers w) with
        | (ev_rmq, GotConnection _) =>
            let both := {| rmq_conn := Some true; pg_conn := Some false |} in
            let connected := ev_pg ++ [RunMigrations] ++ ev_rmq in
            if negb (channel_ok w) then
              (connected ++ [OpenChannel], SetupRaised both)
            else if negb (queue_declare_ok w) then
              (connected ++ [OpenChannel; QueueDeclare queue_name true],
               SetupRaised both)
            else if negb (basic_qos_ok w) then
              (connected ++ [OpenChannel; QueueDeclare queue_name true; BasicQos 1],
               SetupRaised both)
            else
              (connected ++ [OpenChannel; QueueDeclare queue_name true; BasicQos 1],
               SetupDone both)
        | (ev_rmq, _) => (ev_pg ++ [RunMigrations] ++ ev_rmq, SetupRaised with_pg)
        end
      else (ev_pg ++ [RunMigrations], SetupRaised with_pg)
  | (ev_pg, _) => (ev_pg, SetupRaised none)
  end.

(** [PaymentWorker.cleanup]: close the broker connection when there is one
    and it is open, the database connection when there is one and it is
    not closed. *)
Definition cleanup (c : connections) : list startup_event * connections :=
  let '(ev_rmq, rmq') :=
    match rmq_conn c with
    | Some true => ([CloseRabbitMQ], Some false)
    | other => ([], other)
    end in
  let '(ev_pg, pg') :=
    match pg_conn c with
    | Some false => ([ClosePostgres], Some true)
    | other => ([], other)
    end in
  (ev_rmq ++ ev_pg, {| rmq_conn := rmq'; pg_conn := pg' |}).

(** How [channel.start_consuming()] ends: it returns (the handler called
    [stop_consuming]), [KeyboardInterrupt] is raised in it, or an
    [Exception] comes out of it (a lost broker connection, for
    instance). *)
Inductive loop_end : Type :=
| LoopReturned
| LoopInterrupted
| LoopRaised.

(** What [run] finds outside the process: whether [basic_consume] returns,
    how the consumer loop ends, whether the [stop_consuming] of the
    interrupt handler returns, the two flags [cleanup] reads
    ([rmq_conn.is_open] and [pg_conn.closed], as they are by then), and
    whether the two [close()] calls return. *)
Record run_world : Type := {
  basic_consume_ok : bool;
  loop : loop_end;
  stop_consuming_ok : bool;
  rmq_is_open : bool;
  pg_closed : bool;
  rmq_close_ok : bool;
  pg_close_ok : bool
}.

(** [cleanup] as the [finally] of [run], with [close()] calls that may
    raise: the first that raises ends it, and what comes after it in
    [cleanup] is not done.  The result says whether an exception came
    out; with both calls returning it is [cleanup]. *)
Definition cleanup_finally (r : run_world) (c : connections)
    : list startup_event * connections * bool :=
  let close_rmq := match rmq_conn c with Some true => true | _ => false end in
  let close_pg := match pg_conn c with Some false => true | _ => false end in
  if close_rmq && negb (rmq_close_ok r) then ([CloseRabbitMQ], c, true)
  else
    let ev_rmq := if close_rmq then [CloseRabbitMQ] else [] in
    let rmq' := if close_rmq then Some false else rmq_conn c in
    if close_pg && negb (pg_close_ok r) then
      (ev_rmq ++ [ClosePostgres], {| rmq_conn := rmq'; pg_conn := pg_conn c |}, true)
    else (fst (cleanup c), snd (cleanup c), false).

(** [PaymentWorker.run] after a successful [setup]: what was called, the
    connections left, and whether an exception came out.  [basic_consume]
    is before the [try], so [cleanup] does not run when it raises.  The
    callbacks of the loop are [Worker.start_consuming]; here only the way
    the loop ends matters.  Both connections are set by then, and
    [cleanup] reads their flags as they are at the end of the loop. *)
Definition run (queue_name : option string) (r : run_world) (held : connections)
    : list startup_event * connections * bool :=
  if basic_consume_ok r then
    let '(consuming, loop_raised) :=
      match loop r with
      | LoopReturned => ([StartConsuming], false)
      | LoopInterrupted =>
          ([StartConsuming; StopConsuming], negb (stop_consuming_ok r))
      | LoopRaised => ([StartConsuming], true)
      end in
    let at_end := {| rmq_conn := Some (rmq_is_open r);
                     pg_conn := Some (pg_closed r) |} in
    let '(closing, conns, cleanup_raised) := cleanup_finally r at_end in
    (BasicConsume queue_name false :: consuming ++ closing, conns,
     loop_raised || cleanup_raised)
  else ([BasicConsume queue_name false], held, true).

(** [main]: [setup] and [run] inside [try ... except Exception:
    sys.exit(1)], then [sys.exit(0)].  The result is what was called, the
    exit status and the connections left. *)
Definition main (queue_name : option string) (w : startup_world) (r : run_world)
    : list startup_event * Z * connections :=
  match setup queue_name w with
  | (events, SetupRaised conns) => (events, 1, conns)
  | (events, SetupDone conns) =>
      let '(running, conns', raised) := run queue_name r conns in
      (events ++ running, if raised then 1 else 0, conns')
  end.

End Startup.

(** * More vocabulary *)

Module MoreProps.

Section TimerVocabulary.

Import Operator.

(** ** Conditions and stamps *)

(** A condition the timer takes the failure message from. *)
Definition is_failed_condition (c : V1JobCondition) : bool :=
  String.eqb (cond_type c) "Failed" && String.eqb (cond_status c) "True".

(** [condition.message or 'Job failed'] *)
Definition condition_message (c : V1JobCondition) : string :=
  match cond_message c with
  | Some m => if Py.truthy_str m then m else "Job failed"
  | None => "Job failed"
  end.

Definition is_terminal (phase : string) : bool :=
  String.eqb phase "Succeeded" || String.eqb phase "Failed".

(** A workload that gave up after four failed attempts. *)
Definition gave_up : V1JobStatus :=
  {| active := None; succeeded := None; failed := Some 4;
     conditions :=
       Some [ {| cond_type := "Complete"; cond_status := "False";
                 cond_message := None |};
              {| cond_type := "Failed"; cond_status := "True";
                 cond_message := Some "BackoffLimitExceeded"%string |} ] |}.

End TimerVocabulary.

Section WorkloadVocabulary.

Import Workload.

(** ** The environment of the workload *)

(** The four variables that carry credentials. *)
Definition is_credential (name : string) : bool :=
  existsb (String.eqb name)
    ["RABBITMQ_USER"; "RABBITMQ_PASS"; "POSTGRES_USER"; "POSTGRES_PASS"]%string.

(** A PaymentJob for the queue "payments" with default ports and no cap,
    and the secrets its two references name. *)
Definition checkout_spec : paymentjob_spec :=
  {| image := "payment-worker:latest"; queueName := "payments";
     maxMessages := None;
     rabbitmq := {| rmq_host := "rabbitmq"; rmq_port := None;
                    rmq_secret_name := "rabbitmq-credentials" |};
     postgres := {| pg_host := "postgres"; pg_port := Some 6432;
                    pg_database := "payments_db";
                    pg_secret_name := "postgres-credentials" |} |}.

(** The same with a cap of five messages. *)
Definition capped_spec : paymentjob_spec :=
  {| image := "payment-worker:latest"; queueName := "payments";
     maxMessages := Some 5;
     rabbitmq := rabbitmq checkout_spec; postgres := postgres checkout_spec |}.

Definition checkout_secrets (secret key : string) : option string :=
  if String.eqb secret "rabbitmq-credentials" then
    if String.eqb key "username" then Some "broker-user"%string
    else if String.eqb key "password" then Some "broker-pass"%string
    else None
  else if String.eqb secret "postgres-credentials" then
    if String.eqb key "username" then Some "db-user"%string
    else if String.eqb key "password" then Some "db-pass"%string
    else None
  else None.




End WorkloadVocabulary.

Section PipelineVocabulary.

Import Worker Props.

(** ** Failed inserts *)

(** The exception the insert ends with, if it does. *)
Definition insert_error (w : delivery_world) : option exn :=
  match dw_insert w with
  | DbOk => None
  | ExecuteRaises e => Some e
  | CommitRaises e => Some e
  end.

(** [properties.message_id if properties.message_id else None] *)
Definition normal_message_id (d : delivery) : option string :=
  match message_id d with
  | Some m => if Py.truthy_str m then Some m else None
  | None => None
  end.

Definition storage_down : delivery_world :=
  {| dw_insert := CommitRaises Psycopg2Error; dw_reconnect_ok := false;
     dw_utcnow := 1700000000 |}.

End PipelineVocabulary.

Section StartupVocabulary.

Import Startup.

(** ** Connection attempts *)

Definition is_attempt (e : startup_event) : bool :=
  match e with Attempt _ _ => true | _ => false end.

Definition attempts (events : list startup_event) : Z :=
  Z.of_nat (List.length (List.filter is_attempt events)).

(** Seconds spent asleep. *)
Fixpoint slept (events : list startup_event) : Z :=
  match events with
  | [] => 0
  | Sleep seconds :: events' => seconds + slept events'
  | _ :: events' => slept events'
  end.

Definition concerns (svc : service) (e : startup_event) : bool :=
  match e, svc with
  | Attempt Postgres _, Postgres => true
  | Attempt RabbitMQ _, RabbitMQ => true
  | Sleep _, _ => true
  | _, _ => false
  end.

(** A service that refuses the first [n] attempts, and one that never
    answers. *)
Definition up_after (n : nat) (attempt : nat) : connect_answer :=
  if (attempt <=? n)%nat then Refused else Connected.

Definition always_refused (attempt : nat) : connect_answer := Refused.

(** The code points of a string. *)
Fixpoint code_points (s : string) : list Z :=
  match s with
  | EmptyString => []
  | String c s' => Z.of_N (N_of_ascii c) :: code_points s'
  end.

(** The database answers at the third attempt, the migrations run and
    the broker answers at once; and the same with a broker that never
    answers. *)
Definition healthy : startup_world :=
  {| postgres_answers := up_after 2; migrations_ok := true;
     rabbitmq_answers := up_after 0; channel_ok := true;
     queue_declare_ok := true; basic_qos_ok := true |}.

Definition broker_down : startup_world :=
  {| postgres_answers := up_after 2; migrations_ok := true;
     rabbitmq_answers := always_refused; channel_ok := true;
     queue_declare_ok := true; basic_qos_ok := true |}.

(** A run that ends at the cap with both connections still open, and one
    in which the broker connection is lost during the loop. *)
Definition stopped_at_cap : run_world :=
  {| basic_consume_ok := true; loop := LoopReturned; stop_consuming_ok := true;
     rmq_is_open := true; pg_closed := false;
     rmq_close_ok := true; pg_close_ok := true |}.

Definition broker_lost : run_world :=
  {| basic_consume_ok := true; loop := LoopRaised; stop_consuming_ok := true;
     rmq_is_open := false; pg_closed := false;
     rmq_close_ok := true; pg_close_ok := true |}.

End StartupVocabulary.

End MoreProps.

(** * Test vectors *)

Example round_constants :
  List.length Sha256.K = 64%nat
  /\ nth 0 Sha256.K 0 = 0x428a2f98 /\ nth 63 Sha256.K 0 = 0xc67178f2
  /\ Sha256.ha Sha256.H0 = 0x6a09e667 /\ Sha256.hh Sha256.H0 = 0x5be0cd19.
Proof. repeat split. Qed.

Example sha256_abc :
  Sha256.hexdigest (Py.encode "abc")
  = "ba7816bf8f01cfea414140de5dae2223b00361a396177a9cb410ff61f20015ad"%string.
Proof. vm_compute. reflexivity. Qed.

Example sha256_empty :
  Sha256.hexdigest (Py.encode "")
  = "e3b0c44298fc1c149afbf4c8996fb92427ae41e4649b934ca495991b7852b855"%string.
Proof. vm_compute. reflexivity. Qed.

Example sha256_two_blocks :
  Sha256.hexdigest (Py.encode "aaaaaaaaaaaaaaaaaaaaaaaaaaaaaaaaaaaaaaaaaaaaaaaaaaaaaaaaaaaaaaaaaaaaaa")
  = "6bd5e5034855a11241f0dee8fc72850ffd9955b28347a86428b5fa19119f6ad0"%string.
Proof. vm_compute. reflexivity. Qed.

Example sha256_two_byte_character :
  Sha256.hexdigest (Py.encode ("default/" +:+ String (ascii_of_nat 233) ""))
  = "e87f8d1889c62336cc2d8eb4a7d2015e856afc2f320856ef2977ff8112a5a2d7"%string.
Proof. vm_compute. reflexivity. Qed.

Example decode_utf8_valid :
  Py.decode_utf8 [0xC3; 0xA9; 0xE2; 0x82; 0xAC; 0xF0; 0x9F; 0x98; 0x80]
  = Some [0xE9; 0x20AC; 0x1F600].
Proof. reflexivity. Qed.

Example decode_utf8_invalid :
  Py.decode_utf8 [0xFF] = None
  /\ Py.decode_utf8 [0xC0; 0x80] = None
  /\ Py.decode_utf8 [0xED; 0xA0; 0x80] = None
  /\ Py.decode_utf8 [0xF4; 0x90; 0x80; 0x80] = None
  /\ Py.decode_utf8 [0xE2; 0x82] = None.
Proof. repeat split. Qed.

(** * Workload naming *)

Section Naming.

Import Operator Props.

Lemma length_append (s t : string) :
  String.length (s +:+ t) = (String.length s + String.length t)%nat.
Proof. induction s as [|c s IH]; simpl; [reflexivity | now rewrite IH]. Qed.

Lemma str_take_length (n : nat) (s : string) :
  (String.length (Py.str_take n s) <= n)%nat.
Proof.
  revert s. induction n as [|n IH]; intros [|c s]; simpl; try lia.
  specialize (IH s). lia.
Qed.

Lemma str_take_all (n : nat) (s : string) :
  (String.length s <= n)%nat -> Py.str_take n s = s.
Proof.
  revert s. induction n as [|n IH]; intros [|c s]; simpl; intros H;
    try reflexivity; try lia.
  f_equal. apply IH. lia.
Qed.

Lemma hexdigit_is_hex (n : Z) : is_hex_char (Sha256.hexdigit n) = true.
Proof.
  unfold Sha256.hexdigit.
  assert (Hb : (Z.to_nat (n mod 16) < 16)%nat).
  { pose proof (Z.mod_pos_bound n 16). lia. }
  remember (Z.to_nat (n mod 16)) as k eqn:Hk. clear Hk.
  do 16 (destruct k as [|k]; [reflexivity |]). lia.
Qed.

Lemma hex8_all_hex (w : Z) : all_hex (Sha256.hex8 w) = true.
Proof.
  unfold Sha256.hex8. cbn [all_hex]. now rewrite !hexdigit_is_hex.
Qed.

(** The first eight characters of a digest are the first state word. *)
Lemma short_hash_is_first_word (msg : list Z) :
  Py.str_take 8 (Sha256.hexdigest msg) = Sha256.hex8 (Sha256.ha (Sha256.sha256 msg)).
Proof.
  unfold Sha256.hexdigest. destruct (Sha256.sha256 msg). reflexivity.
Qed.

Lemma hexdigest_length (msg : list Z) : String.length (Sha256.hexdigest msg) = 64%nat.
Proof.
  unfold Sha256.hexdigest. destruct (Sha256.sha256 msg). reflexivity.
Qed.

(** C8. For every name and namespace, [get_job_name] is a function of the
    two strings alone (it reads nothing else, so two calls agree); its
    result is a prefix, a dash and a digest, where the prefix is
    "paymentjob-<name>" cut to at most 54 characters and the digest is the
    first 8 hexadecimal characters of the SHA-256 of "<namespace>/<name>";
    the whole name is at most 63 characters long. *)
Theorem job_name_form (name namespace : string) :
  exists prefix digest : string,
    get_job_name name namespace = prefix +:+ "-" +:+ digest
    /\ prefix = Py.str_take 54 ("paymentjob-" +:+ name)
    /\ (String.length prefix <= 54)%nat
    /\ digest = Py.str_take 8
                  (Sha256.hexdigest (Py.encode (namespace +:+ "/" +:+ name)))
    /\ String.length digest = 8%nat
    /\ all_hex digest = true
    /\ (String.length (get_job_name name namespace) <= 63)%nat.
Proof.
  set (base := "paymentjob-" +:+ name).
  set (digest := Py.str_take 8
                   (Sha256.hexdigest (Py.encode (namespace +:+ "/" +:+ name)))).
  assert (Hd : String.length digest = 8%nat).
  { unfold digest. now rewrite short_hash_is_first_word. }
  assert (Hname : get_job_name name namespace = Py.str_take 54 base +:+ "-" +:+ digest).
  { unfold get_job_name. fold base. fold digest.
    destruct (54 <? String.length base)%nat eqn:Hlen; [reflexivity |].
    apply Nat.ltb_ge in Hlen. now rewrite str_take_all. }
  exists (Py.str_take 54 base), digest.
  pose proof (str_take_length 54 base) as Hp.
  repeat split; try assumption; try reflexivity.
  - unfold digest. rewrite short_hash_is_first_word. apply hex8_all_hex.
  - rewrite Hname, !length_append, Hd.
    change (String.length "-") with 1%nat. lia.
Qed.

Example job_name_checkout :
  get_job_name "checkout" "billing" = "paymentjob-checkout-4667bfe7"%string.
Proof. vm_compute. reflexivity. Qed.

End Naming.

(** * Phase derivation *)

Section Phases.

Import Operator Props.

Lemma counter_pos_count (c : option Z) : counter_pos c = (0 <? count c).
Proof.
  destruct c as [n|]; simpl; [| reflexivity].
  destruct (Z.eqb_spec n 0) as [-> | Hn]; simpl; [reflexivity |].
  apply Z.gtb_ltb.
Qed.

(** The timer derives the phase by the documented priority. *)
Lemma timer_phase_priority (js : V1JobStatus) : timer_phase js = priority_phase js.
Proof. unfold timer_phase, priority_phase. now rewrite !counter_pos_count. Qed.

Lemma timer_phase_cases (js : V1JobStatus) :
  timer_phase js = "Succeeded"%string \/ timer_phase js = "Failed"%string
  \/ timer_phase js = "Running"%string \/ timer_phase js = "Pending"%string.
Proof. unfold timer_phase. repeat case_match; auto. Qed.

(** C3. The create handler does not derive the phase by the documented
    priority: for a workload with one active pod and one failed attempt it
    records Running, where the priority (and the timer) say Failed. *)
Theorem create_phase_prefers_active :
  let js := counters (Some 1) None (Some 1) in
  create_phase js = "Running"%string
  /\ priority_phase js = "Failed"%string
  /\ timer_phase js = "Failed"%string
  /\ exists status,
       create_paymentjob "checkout" "billing" (job_with js)
         (fun _ _ => ApiOk tt) "2024-01-01T00:00:00Z"
       = CreateDone status None []
       /\ status !! "phase" = Some "Running"%string.
Proof.
  repeat split. eexists. split; [reflexivity |]. vm_compute. reflexivity.
Qed.

End Phases.

(** * The timer handler *)

Section Timer.

Import Operator Props.

Variables name namespace : string.

Lemma get_job_name_truthy : Py.truthy_str (get_job_name name namespace) = true.
Proof. unfold get_job_name. case_match; reflexivity. Qed.

Lemma timer_job_name_truthy (status : gmap string string) :
  Py.truthy_str (timer_job_name name namespace status) = true.
Proof.
  unfold timer_job_name. destruct (status !! "jobName") as [j|] eqn:Hj.
  - destruct (Py.truthy_str j) eqn:Ht; [assumption | apply get_job_name_truthy].
  - apply get_job_name_truthy.
Qed.

Lemma monitor_not_found status read now1 now2 st reason :
  read (timer_job_name name namespace status) namespace = ApiException st reason ->
  monitor_job_status name namespace status read now1 now2
  = if st =? 404 then TimerDone ∅ [] else TimerRaised st.
Proof. intros H. unfold monitor_job_status. now rewrite H. Qed.

Lemma monitor_unchanged status read now1 now2 js :
  read (timer_job_name name namespace status) namespace = ApiOk js ->
  timer_phase js = current_phase status ->
  monitor_job_status name namespace status read now1 now2 = TimerDone ∅ [].
Proof.
  intros H Heq. unfold monitor_job_status. rewrite H, Heq.
  now rewrite String.eqb_refl.
Qed.

Lemma monitor_changed status read now1 now2 js :
  read (timer_job_name name namespace status) namespace = ApiOk js ->
  timer_phase js <> current_phase status ->
  exists patch events,
    monitor_job_status name namespace status read now1 now2 = TimerDone patch events
    /\ patch !! "phase" = Some (timer_phase js)
    /\ patch !! "lastUpdateTime" = Some now1
    /\ patch !! "jobName" = Some (timer_job_name name namespace status).
Proof.
  intros H Hne. unfold monitor_job_status. rewrite H.
  apply String.eqb_neq in Hne. rewrite Hne. cbn [negb].
  eexists _, _. split; [reflexivity |].
  repeat split; repeat case_match; simplify_map_eq; reflexivity.
Qed.

(** C5. A tick whose derived phase equals the recorded phase writes no
    status field and posts no event; a tick that writes anything read the
    workload and derived a phase different from the recorded one. *)
Theorem timer_writes_on_change_only (status : gmap string string)
    (read : string -> string -> api_result V1JobStatus) (now1 now2 : string) :
  (forall js,
     read (timer_job_name name namespace status) namespace = ApiOk js ->
     timer_phase js = current_phase status ->
     monitor_job_status name namespace status read now1 now2 = TimerDone ∅ [])
  /\ (forall patch events,
        monitor_job_status name namespace status read now1 now2
        = TimerDone patch events ->
        patch <> ∅ ->
        exists js,
          read (timer_job_name name namespace status) namespace = ApiOk js
          /\ timer_phase js <> current_phase status).
Proof.
  split.
  - intros js. apply monitor_unchanged.
  - intros patch events Hrun Hpatch.
    destruct (read (timer_job_name name namespace status) namespace)
      as [js | st reason] eqn:Hread.
    + exists js. split; [reflexivity |]. intros Heq.
      rewrite (monitor_unchanged _ _ _ _ js Hread Heq) in Hrun.
      injection Hrun as <- _. now apply Hpatch.
    + rewrite (monitor_not_found _ _ _ _ _ _ Hread) in Hrun.
      destruct (st =? 404); [| discriminate].
      injection Hrun as <- _. now destruct Hpatch.
Qed.

(** ** One tick *)

Lemma tick_not_found status w st reason :
  tw_read w (timer_job_name name namespace status) namespace = ApiException st reason ->
  tick name namespace status w = status.
Proof.
  intros H. unfold tick. rewrite (monitor_not_found _ _ _ _ _ _ H).
  destruct (st =? 404); [| reflexivity]. apply (left_id_L ∅ (∪)).
Qed.

(** After a tick that read the workload, the recorded phase is the derived
    one, whatever was recorded before. *)
Lemma tick_phase status w js :
  tw_read w (timer_job_name name namespace status) namespace = ApiOk js ->
  current_phase (tick name namespace status w) = timer_phase js.
Proof.
  intros H. unfold tick.
  destruct (String.eqb_spec (timer_phase js) (current_phase status)) as [Heq | Hne].
  - rewrite (monitor_unchanged _ _ _ _ js H Heq).
    now rewrite (left_id_L ∅ (∪)).
  - destruct (monitor_changed status _ (tw_now1 w) (tw_now2 w) js H Hne)
      as (patch & events & -> & Hphase & _).
    unfold current_phase. now rewrite (lookup_union_Some_l _ _ _ _ Hphase).
Qed.

(** The name under which the workload is looked up does not change. *)
Lemma tick_job_name status w :
  timer_job_name name namespace (tick name namespace status w)
  = timer_job_name name namespace status.
Proof.
  destruct (tw_read w (timer_job_name name namespace status) namespace)
    as [js | st reason] eqn:Hread.
  - unfold tick.
    destruct (String.eqb_spec (timer_phase js) (current_phase status)) as [Heq | Hne].
    + rewrite (monitor_unchanged _ _ _ _ js Hread Heq).
      now rewrite (left_id_L ∅ (∪)).
    + destruct (monitor_changed status _ (tw_now1 w) (tw_now2 w) js Hread Hne)
        as (patch & events & -> & _ & _ & Hjob).
      unfold timer_job_name at 1.
      rewrite (lookup_union_Some_l _ _ _ _ Hjob).
      now rewrite timer_job_name_truthy.
  - now rewrite (tick_not_found _ _ _ _ Hread).
Qed.

Lemma phase_le_refl (p : string) : phase_le p p.
Proof. now left. Qed.

(** Over a sequence of ticks the handler adds nothing to the readings. *)
Lemma recorded_phases_derived (status : gmap string string) (ws : list tick_world) :
  recorded_phases name namespace status ws
  = derived_phases (current_phase status)
      (timer_job_name name namespace status) namespace ws.
Proof.
  unfold recorded_phases. revert status.
  induction ws as [| w ws IH]; intros status; [reflexivity |].
  cbn [run_ticks map derived_phases].
  rewrite IH, tick_job_name.
  destruct (tw_read w (timer_job_name name namespace status) namespace)
    as [js | st reason] eqn:Hread.
  - now rewrite (tick_phase _ _ _ Hread).
  - now rewrite (tick_not_found _ _ _ _ Hread).
Qed.

Lemma derived_phases_nondecreasing (phase job_name : string) (ws : list tick_world) :
  nondecreasing_from phase (derived_phases phase job_name namespace ws)
  <-> nondecreasing_from phase (observed_phases job_name namespace ws).
Proof.
  revert phase. induction ws as [| w ws IH]; intros phase; [reflexivity |].
  cbn [derived_phases observed_phases nondecreasing_from].
  destruct (tw_read w job_name namespace) as [js | st reason].
  - cbn [nondecreasing_from]. now rewrite IH.
  - rewrite IH. split; [now intros [_ H] | intros H].
    split; [apply phase_le_refl | exact H].
Qed.

(** C2, as the code has it. The phase recorded after a tick that got the
    workload is the phase derived from the counters that tick read,
    whatever was recorded before, and a tick that did not get the
    workload leaves the status as it was.  Over a sequence of ticks the
    recorded phases are therefore the derived ones, and they are
    non-decreasing in Pending < Running < {Succeeded, Failed} exactly when
    the phases derived from the successive readings are. *)
Theorem recorded_phase_follows_derived (status : gmap string string)
    (ws : list tick_world) :
  (forall w js,
     tw_read w (timer_job_name name namespace status) namespace = ApiOk js ->
     current_phase (tick name namespace status w) = timer_phase js)
  /\ (forall w st reason,
        tw_read w (timer_job_name name namespace status) namespace
        = ApiException st reason ->
        tick name namespace status w = status)
  /\ recorded_phases name namespace status ws
     = derived_phases (current_phase status)
         (timer_job_name name namespace status) namespace ws
  /\ (nondecreasing_from (current_phase status)
        (recorded_phases name namespace status ws)
      <-> nondecreasing_from (current_phase status)
            (observed_phases (timer_job_name name namespace status) namespace ws)).
Proof.
  split; [intros w js; apply tick_phase |].
  split; [intros w st reason; apply tick_not_found |].
  split; [apply recorded_phases_derived |].
  rewrite recorded_phases_derived. apply derived_phases_nondecreasing.
Qed.

End Timer.

Section TimerExamples.

Import Operator Props.

(** Pending, then one active pod, then one completion: the recorded
    phases are the three derived ones, and they do not regress. *)
Lemma recorded_phase_follows_derived_witness :
  let ws := [tick_at (counters None None None) "2024-01-01T00:00:00Z";
             tick_at (counters (Some 1) None None) "2024-01-01T00:00:10Z";
             tick_at (counters None (Some 1) None) "2024-01-01T00:00:20Z"] in
  recorded_phases "checkout" "billing" ∅ ws
  = ["Pending"; "Running"; "Succeeded"]%string
  /\ nondecreasing_from (current_phase ∅)
       (recorded_phases "checkout" "billing" ∅ ws).
Proof.
  cbv zeta. split.
  - rewrite (proj1 (proj2 (proj2 (recorded_phase_follows_derived
               "checkout" "billing" ∅ _)))).
    vm_compute. reflexivity.
  - apply (proj2 (proj2 (proj2 (proj2 (recorded_phase_follows_derived
               "checkout" "billing" ∅ _))))).
    vm_compute. repeat split; (left; reflexivity) || (right; lia).
Defined.

(** C2, as stated, fails: a tick that finds no counter above zero takes a
    Running resource back to Pending, and a completion seen after a failed
    attempt changes a Failed resource to Succeeded. *)
Lemma phase_regresses :
  let to_pending :=
    [tick_at (counters (Some 1) None None) "2024-01-01T00:00:10Z";
     tick_at (counters (Some 0) None None) "2024-01-01T00:00:20Z"] in
  let to_succeeded :=
    [tick_at (counters (Some 1) None (Some 1)) "2024-01-01T00:00:10Z";
     tick_at (counters None (Some 1) (Some 1)) "2024-01-01T00:00:20Z"] in
  recorded_phases "checkout" "billing" ∅ to_pending = ["Running"; "Pending"]%string
  /\ ~ nondecreasing_from (current_phase ∅)
        (recorded_phases "checkout" "billing" ∅ to_pending)
  /\ recorded_phases "checkout" "billing" ∅ to_succeeded
     = ["Failed"; "Succeeded"]%string
  /\ ~ nondecreasing_from (current_phase ∅)
        (recorded_phases "checkout" "billing" ∅ to_succeeded).
Proof.
  cbv zeta.
  split; [vm_compute; reflexivity |].
  split; [intros H; vm_compute in H;
          destruct H as (_ & [H | H] & _); [discriminate H | lia] |].
  split; [vm_compute; reflexivity |].
  intros H; vm_compute in H.
  destruct H as (_ & [H | H] & _); [discriminate H | lia].
Qed.

(** C4. [completionTime] is written again when a later tick moves the
    resource from one terminal phase to the other: stamped at the tick that
    derived Failed, it is overwritten by the tick that derives Succeeded. *)
Theorem completion_time_overwritten :
  let ws := [tick_at (counters (Some 1) None (Some 1)) "2024-01-01T00:00:10Z";
             tick_at (counters None (Some 1) (Some 1)) "2024-01-01T00:00:20Z"] in
  map (fun st => (st !! "phase", st !! "completionTime"))
      (run_ticks "checkout" "billing" ∅ ws)
  = [(Some "Failed", Some "2024-01-01T00:00:10Z");
     (Some "Succeeded", Some "2024-01-01T00:00:20Z")]%string.
Proof. vm_compute. reflexivity. Qed.

(** A tick that sees the recorded phase again writes nothing; a tick that
    wrote something saw another phase. *)
Lemma timer_writes_on_change_only_witness :
  monitor_job_status "checkout" "billing" (<["phase" := "Running"%string]> ∅)
    (job_with (counters (Some 1) None None))
    "2024-01-01T00:00:10Z" "2024-01-01T00:00:10Z"
  = TimerDone ∅ []
  /\ exists js,
       job_with (counters None (Some 1) None)
         (timer_job_name "checkout" "billing" (<["phase" := "Running"%string]> ∅))
         "billing" = ApiOk js
       /\ timer_phase js <> current_phase (<["phase" := "Running"%string]> ∅).
Proof.
  split.
  - apply (proj1 (timer_writes_on_change_only "checkout" "billing"
                    (<["phase" := "Running"%string]> ∅)
                    (job_with (counters (Some 1) None None))
                    "2024-01-01T00:00:10Z" "2024-01-01T00:00:10Z")
             (counters (Some 1) None None)).
    + reflexivity.
    + vm_compute. reflexivity.
  - eapply (proj2 (timer_writes_on_change_only "checkout" "billing"
                     (<["phase" := "Running"%string]> ∅)
                     (job_with (counters None (Some 1) None))
                     "2024-01-01T00:00:20Z" "2024-01-01T00:00:20Z")).
    + reflexivity.
    + intros H. apply (f_equal (fun m : gmap string string => m !! "phase")) in H.
      vm_compute in H. discriminate H.
Defined.

End TimerExamples.

(** * The delivery pipeline *)

Section PipelineFacts.

Import Worker Props.

Context {J : Type}.
Variable json_loads : list Z -> outcome J.
Variable cfg : config.

Abbreviation process_message := (process_message json_loads cfg).
Abbreviation start_consuming := (start_consuming json_loads cfg).
Abbreviation wstate := (@wstate J).

(** Runs the handler symbolically: one goal per way the parse and the
    insert can end. *)
Ltac run_handler w d :=
  unfold Worker.process_message, try_except, bind, parse_body, insert_payment,
    execute_insert, commit, basic_ack, basic_nack, stop_consuming, reconnect,
    count_message, get_messages_processed, emit, ret, raise;
  destruct (Py.decode_utf8 (body d)) as [?text |];
    [destruct (json_loads text) as [?payload | []] |];
  destruct (dw_insert w) as [| [] | []];
  cbn -[cap_reached Z.add];
  try (destruct (cap_reached _ _); cbn -[Z.add]).

(** Every exception of the model is an [Exception], which the handler
    catches: it returns. *)
Lemma process_message_returns w d (s : wstate) :
  fst (process_message w d s) = Ret tt.
Proof. run_handler w d; reflexivity. Qed.

(** ** Acknowledgements and commits in a log *)

Lemma afc_nil : acks_follow_commits [].
Proof. intros [|? pre] tag post H; discriminate H. Qed.

Lemma afc_skip e l :
  is_ack e = false -> acks_follow_commits l -> acks_follow_commits (e :: l).
Proof.
  intros He Hl [|e' pre] tag post H; simplify_eq/=.
  destruct (Hl _ _ _ eq_refl) as [pid Hin]. exists pid. now right.
Qed.

Lemma afc_commit_ack tag pid l :
  acks_follow_commits l -> acks_follow_commits (EvCommit tag pid :: EvAck tag :: l).
Proof.
  intros Hl [|e0 [|e1 pre]] tag' post H; simplify_eq/=.
  - exists pid. now left.
  - destruct (Hl _ _ _ eq_refl) as [pid' Hin]. exists pid'. right. now right.
Qed.

Lemma afc_app l1 l2 :
  acks_follow_commits l1 -> acks_follow_commits l2 -> acks_follow_commits (l1 ++ l2).
Proof.
  intros H1 H2 pre tag post H.
  apply app_eq_app in H as [k [[-> Hk] | [-> Hk]]].
  - destruct k as [|e k]; cbn in Hk.
    + destruct (H2 [] tag post (eq_sym Hk)) as [pid []].
    + injection Hk as <- ->. apply (H1 pre tag k). reflexivity.
  - destruct (H2 k tag post Hk) as [pid Hin].
    exists pid. apply in_or_app. now right.
Qed.

Ltac solve_afc :=
  repeat first [ apply afc_nil | apply afc_commit_ack
               | apply afc_skip; [reflexivity |] ].

(** ** One delivery *)

(** What one call adds to the log and to the table. *)
Lemma process_message_effects w d (s : wstate) :
  exists evs rows,
    log (snd (process_message w d s)) = log s ++ evs
    /\ payments (snd (process_message w d s)) = payments s ++ rows
    /\ acks_follow_commits evs
    /\ (forall tag pid, In (EvCommit tag pid) evs ->
          exists r, In r rows /\ id r = pid).
Proof.
  run_handler w d; rewrite <- ?app_assoc; cbn [app];
    eexists _, _;
    (split; [reflexivity |]);
    (split; [first [reflexivity | symmetry; apply app_nil_r] |]);
    (split; [solve_afc |]);
    intros tag pid Hin; cbn in Hin;
    repeat (destruct Hin as [Hin | Hin]; try discriminate Hin);
    try contradiction;
    injection Hin as _ <-; eexists; (split; [now left | reflexivity]).
Qed.

Lemma count_acks_app l1 l2 : count_acks (l1 ++ l2) = count_acks l1 + count_acks l2.
Proof. unfold count_acks. rewrite List.filter_app, List.length_app. lia. Qed.

(** A delivery that parses and is committed is acknowledged and counted;
    the consumer is stopped when the count reaches the cap. *)
Lemma process_message_persistable w d (s : wstate) :
  persistable json_loads (d, w) = true ->
  messages_processed (snd (process_message w d s)) = messages_processed s + 1
  /\ count_acks (log (snd (process_message w d s))) = count_acks (log s) + 1
  /\ consuming (snd (process_message w d s))
     = if cap_reached (MAX_MESSAGES cfg) (messages_processed s + 1) then false
       else consuming s.
Proof.
  unfold persistable, parses. cbn [fst snd].
  run_handler w d; intros Hp; try discriminate Hp;
    rewrite ?count_acks_app; repeat split; try reflexivity;
    set (c := count_acks (log s)); unfold count_acks; cbn; lia.
Qed.

(** Any other delivery is neither acknowledged nor counted. *)
Lemma process_message_not_persistable w d (s : wstate) :
  persistable json_loads (d, w) = false ->
  messages_processed (snd (process_message w d s)) = messages_processed s
  /\ count_acks (log (snd (process_message w d s))) = count_acks (log s)
  /\ consuming (snd (process_message w d s)) = consuming s
  /\ payments (snd (process_message w d s)) = payments s.
Proof.
  unfold persistable, parses. cbn [fst snd].
  run_handler w d; intros Hp; try discriminate Hp;
    rewrite ?count_acks_app; repeat split; try reflexivity;
    set (c := count_acks (log s)); unfold count_acks; cbn; lia.
Qed.

(** C6. A body that is not valid UTF-8 fails to parse, whatever
    [json.loads] accepts, but it is not rejected for good: the handler
    negative-acknowledges it with requeue.  (Nothing is persisted.) *)
Theorem undecodable_body_is_requeued w tag mid (s : wstate) :
  let d := {| delivery_tag := tag; message_id := mid; body := [0xFF] |} in
  parses json_loads d = false
  /\ process_message w d s
     = (Ret tt,
        {| pg_conn := pg_conn s; payments := payments s;
           payments_id_seq := payments_id_seq s;
           messages_processed := messages_processed s;
           consuming := consuming s;
           log := log s ++ [EvNack tag true] |}).
Proof. split; reflexivity. Qed.

(** X29. Text on which [json.loads] raises [JSONDecodeError] is rejected
    without requeue, and nothing else changes; when [json.loads] raises
    another exception ([RecursionError] on a deeply nested text, for
    instance) the delivery goes back to the queue instead. *)
Lemma invalid_json_is_rejected w d (s : wstate) text :
  Py.decode_utf8 (body d) = Some text ->
  (json_loads text = Raise JSONDecodeError ->
   process_message w d s
   = (Ret tt,
      {| pg_conn := pg_conn s; payments := payments s;
         payments_id_seq := payments_id_seq s;
         messages_processed := messages_processed s;
         consuming := consuming s;
         log := log s ++ [EvNack (delivery_tag d) false] |}))
  /\ (json_loads text = Raise OtherException ->
      process_message w d s
      = (Ret tt,
         {| pg_conn := pg_conn s; payments := payments s;
            payments_id_seq := payments_id_seq s;
            messages_processed := messages_processed s;
            consuming := consuming s;
            log := log s ++ [EvNack (delivery_tag d) true] |})).
Proof.
  intros Hd.
  split; intros Hj; unfold Worker.process_message, try_except, bind, parse_body;
    rewrite Hd, Hj; reflexivity.
Qed.

(** X30. No body that fails to parse reaches the table. *)
Lemma unparsable_persists_nothing w d (s : wstate) :
  parses json_loads d = false ->
  payments (snd (process_message w d s)) = payments s
  /\ payments_id_seq (snd (process_message w d s)) = payments_id_seq s.
Proof.
  unfold parses. run_handler w d; intros Hp; try discriminate Hp; now split.
Qed.

(** C10. One delivery adds 1 to the counter when it was acknowledged and
    nothing otherwise; an acknowledged delivery is one that parsed and
    whose row was committed before the acknowledgement; a delivery that
    was negative-acknowledged (malformed, storage error, unexpected error)
    or that failed to parse was not acknowledged, so it does not count. *)
Theorem only_acknowledged_messages_count w d (s : wstate) :
  exists evs,
    log (snd (process_message w d s)) = log s ++ evs
    /\ messages_processed (snd (process_message w d s))
       = messages_processed s + (if existsb is_ack evs then 1 else 0)
    /\ (existsb is_ack evs = true ->
          persistable json_loads (d, w) = true
          /\ exists pid rest,
               evs = EvCommit (delivery_tag d) pid :: EvAck (delivery_tag d) :: rest)
    /\ (existsb is_nack evs = true -> existsb is_ack evs = false)
    /\ (parses json_loads d = false -> existsb is_ack evs = false).
Proof.
  unfold persistable, parses. cbn [fst snd].
  run_handler w d; rewrite <- ?app_assoc; cbn [app];
    eexists; (split; [reflexivity |]); cbn [existsb is_ack is_nack orb];
    (split; [first [reflexivity | lia] |]);
    repeat split; try discriminate; try reflexivity; eauto.
Qed.

(** ** The consumer loop *)

Lemma start_consuming_stopped stream (s : wstate) :
  consuming s = false -> start_consuming stream s = (s, stream).
Proof. intros H. destruct stream as [| [d w] rest]; cbn; now rewrite ?H. Qed.

Lemma start_consuming_effects stream (s : wstate) :
  exists evs rows,
    log (fst (start_consuming stream s)) = log s ++ evs
    /\ payments (fst (start_consuming stream s)) = payments s ++ rows
    /\ acks_follow_commits evs
    /\ (forall tag pid, In (EvCommit tag pid) evs ->
          exists r, In r rows /\ id r = pid).
Proof.
  revert s. induction stream as [| [d w] rest IH]; intros s.
  - exists [], []. cbn. rewrite !app_nil_r. repeat split; [apply afc_nil | tauto].
  - cbn [Worker.start_consuming]. destruct (consuming s).
    + destruct (process_message_effects w d s) as (e1 & r1 & Hl1 & Hp1 & Ha1 & Hc1).
      destruct (IH (snd (process_message w d s))) as (e2 & r2 & Hl2 & Hp2 & Ha2 & Hc2).
      exists (e1 ++ e2), (r1 ++ r2).
      rewrite Hl2, Hp2, Hl1, Hp1, <- !app_assoc.
      repeat split; [now apply afc_app |].
      intros tag pid Hin. apply in_app_or in Hin as [Hin | Hin].
      * destruct (Hc1 _ _ Hin) as (r & Hr & Hid). exists r. split; [| assumption].
        apply in_or_app. now left.
      * destruct (Hc2 _ _ Hin) as (r & Hr & Hid). exists r. split; [| assumption].
        apply in_or_app. now right.
    + exists [], []. cbn. rewrite !app_nil_r. repeat split; [apply afc_nil | tauto].
Qed.

(** C1. In every run of the consumer, whatever the bodies and whatever the
    database answers, each acknowledgement in the log is preceded by the
    commit of a row for the same delivery, and that row is in the table. *)
Theorem ack_only_after_commit stream rows seq :
  exists new_rows,
    payments (fst (start_consuming stream (init rows seq))) = rows ++ new_rows
    /\ forall pre tag post,
         log (fst (start_consuming stream (init rows seq))) = pre ++ EvAck tag :: post ->
         exists pid r,
           In (EvCommit tag pid) pre /\ In r new_rows /\ id r = pid.
Proof.
  destruct (start_consuming_effects stream (init rows seq))
    as (evs & new_rows & Hlog & Hpay & Hafc & Hrows).
  exists new_rows. split; [exact Hpay |].
  intros pre tag post H. rewrite Hlog in H. cbn in H. subst evs.
  destruct (Hafc pre tag post eq_refl) as [pid Hin].
  destruct (Hrows tag pid) as (r & Hr & Hid).
  { apply in_or_app. now left. }
  exists pid, r. auto.
Qed.

Lemma no_cap_never_reached processed :
  no_cap (MAX_MESSAGES cfg) -> cap_reached (MAX_MESSAGES cfg) processed = false.
Proof. intros [-> | [-> | ->]]; reflexivity. Qed.

(** With no limit set, the whole stream is consumed and the consumer goes on. *)
Lemma start_consuming_no_cap stream (s : wstate) :
  no_cap (MAX_MESSAGES cfg) ->
  consuming s = true ->
  snd (start_consuming stream s) = []
  /\ consuming (fst (start_consuming stream s)) = true
  /\ count_acks (log (fst (start_consuming stream s)))
     = count_acks (log s) + count_persistable json_loads stream.
Proof.
  intros Hcap. revert s. induction stream as [| [d w] rest IH]; intros s Hs.
  - cbn. repeat split; [assumption | unfold count_persistable; cbn; lia].
  - cbn [Worker.start_consuming]. rewrite Hs.
    unfold count_persistable. cbn [List.filter].
    destruct (persistable json_loads (d, w)) eqn:Hp.
    + destruct (process_message_persistable w d s Hp) as (_ & Hacks & Hcons).
      rewrite (no_cap_never_reached _ Hcap), Hs in Hcons.
      destruct (IH _ Hcons) as (Hrest & Hc & Hn).
      repeat split; [assumption | assumption |].
      rewrite Hn, Hacks. unfold count_persistable. cbn [List.length]. lia.
    + destruct (process_message_not_persistable w d s Hp) as (_ & Hacks & Hcons & _).
      rewrite Hs in Hcons.
      destruct (IH _ Hcons) as (Hrest & Hc & Hn).
      repeat split; [assumption | assumption |].
      rewrite Hn, Hacks. unfold count_persistable. lia.
Qed.

(** With a cap [N >= 1], consumption stops at the delivery that brings the
    count to [N]; what follows it in the stream is left alone. *)
Lemma start_consuming_cap N stream (s : wstate) :
  MAX_MESSAGES cfg = MaxInt N ->
  consuming s = true ->
  0 <= messages_processed s < N ->
  N - messages_processed s <= count_persistable json_loads stream ->
  count_acks (log (fst (start_consuming stream s)))
  = count_acks (log s) + (N - messages_processed s)
  /\ messages_processed (fst (start_consuming stream s)) = N
  /\ consuming (fst (start_consuming stream s)) = false
  /\ exists pre,
       stream = pre ++ snd (start_consuming stream s)
       /\ start_consuming pre s = (fst (start_consuming stream s), []).
Proof.
  intros Hcap. revert s. induction stream as [| [d w] rest IH]; intros s Hs Hlt Hn.
  - unfold count_persistable in Hn. cbn in Hn. lia.
  - cbn [Worker.start_consuming]. rewrite Hs.
    unfold count_persistable in Hn. cbn [List.filter] in Hn.
    destruct (persistable json_loads (d, w)) eqn:Hp.
    + destruct (process_message_persistable w d s Hp) as (Hmp & Hacks & Hcons).
      rewrite Hcap in Hcons. cbn [cap_reached] in Hcons.
      cbn [List.length] in Hn.
      destruct (Z.leb_spec N (messages_processed s + 1)) as [Hreach | Hbelow].
      * assert (Hne : (N =? 0) = false) by (apply Z.eqb_neq; lia).
        rewrite Hne in Hcons. cbn in Hcons.
        rewrite (start_consuming_stopped rest _ Hcons). cbn [fst snd].
        repeat split; [lia | lia | assumption |].
        exists [(d, w)]. split; [reflexivity |].
        cbn [Worker.start_consuming]. now rewrite Hs.
      * rewrite andb_false_r, Hs in Hcons.
        destruct (IH (snd (process_message w d s)) Hcons) as (Ha & Hm & Hc & pre & Hpre & Hrun).
        { lia. }
        { unfold count_persistable. lia. }
        repeat split; [lia | assumption | assumption |].
        exists ((d, w) :: pre). split; [cbn; now f_equal |].
        cbn [Worker.start_consuming]. now rewrite Hs.
    + destruct (process_message_not_persistable w d s Hp) as (Hmp & Hacks & Hcons & _).
      rewrite Hs in Hcons.
      destruct (IH (snd (process_message w d s)) Hcons) as (Ha & Hm & Hc & pre & Hpre & Hrun).
      { lia. }
      { unfold count_persistable. lia. }
      repeat split; [lia | assumption | assumption |].
      exists ((d, w) :: pre). split; [cbn; now f_equal |].
      cbn [Worker.start_consuming]. now rewrite Hs.
Qed.

(** C7, as the code has it. With a cap [N >= 1] and at least [N]
    deliveries in the stream that parse and are committed, the consumer
    acknowledges exactly [N] deliveries and stops; the deliveries after the
    one that reached the cap are never handed to the handler (the run over
    the consumed prefix alone ends in the same state).  With no cap, or a
    cap of 0, the whole stream is consumed and the consumer does not stop. *)
Theorem cap_stops_consumption stream rows seq :
  (no_cap (MAX_MESSAGES cfg) ->
     snd (start_consuming stream (init rows seq)) = []
     /\ consuming (fst (start_consuming stream (init rows seq))) = true
     /\ count_acks (log (fst (start_consuming stream (init rows seq))))
        = count_persistable json_loads stream)
  /\ (forall N,
        MAX_MESSAGES cfg = MaxInt N ->
        1 <= N ->
        N <= count_persistable json_loads stream ->
        count_acks (log (fst (start_consuming stream (init rows seq)))) = N
        /\ consuming (fst (start_consuming stream (init rows seq))) = false
        /\ exists pre,
             stream = pre ++ snd (start_consuming stream (init rows seq))
             /\ start_consuming pre (init rows seq)
                = (fst (start_consuming stream (init rows seq)), [])).
Proof.
  split.
  - intros Hcap.
    destruct (start_consuming_no_cap stream (init rows seq) Hcap eq_refl)
      as (Hrest & Hc & Hn).
    repeat split; [assumption | assumption |].
    rewrite Hn. change (count_acks (log (init rows seq))) with 0. lia.
  - intros N Hcap HN Hcount.
    destruct (start_consuming_cap N stream (init rows seq) Hcap eq_refl)
      as (Ha & _ & Hc & Hpre).
    { cbn. lia. }
    { cbn. lia. }
    repeat split; [| assumption | assumption].
    rewrite Ha. change (count_acks (log (init rows seq))) with 0. cbn. lia.
Qed.

End PipelineFacts.

Section PipelineExamples.

Import Worker Props.

(** One delivery that parses and is committed: the commit, then the ack. *)
Lemma ack_only_after_commit_witness :
  exists pid (r : @payment unit), In (EvCommit 1 pid) [EvCommit 1 1] /\ id r = pid.
Proof.
  destruct (ack_only_after_commit loads_braces (config_with MaxNone) [good 1] [] 0)
    as (new_rows & _ & H).
  destruct (H [EvCommit 1 1] 1 [] eq_refl) as (pid & r & Hin & _ & Hid).
  exists pid, r. split; assumption.
Defined.

(** C7, as stated, fails for a cap of 0: the consumer acknowledges both
    deliveries (not none) and does not stop. *)
Lemma cap_zero_is_no_cap :
  let run := start_consuming loads_braces (config_with (MaxInt 0))
               [good 1; good 2] (init [] 0) in
  log (fst run) = [EvCommit 1 1; EvAck 1; EvCommit 2 2; EvAck 2]
  /\ count_acks (log (fst run)) <> 0
  /\ consuming (fst run) = true
  /\ snd run = [].
Proof. vm_compute. repeat split; discriminate. Qed.

(** A cap of 2 on a stream whose third delivery is the second good one:
    two acknowledgements, then the stop; the fourth delivery is left. *)
Lemma cap_stops_consumption_witness :
  let run := start_consuming loads_braces (config_with (MaxInt 2))
               [good 1; malformed 2; good 3; good 4] (init [] 0) in
  count_acks (log (fst run)) = 2
  /\ consuming (fst run) = false
  /\ exists pre, [good 1; malformed 2; good 3; good 4] = pre ++ snd run
       /\ start_consuming loads_braces (config_with (MaxInt 2)) pre (init [] 0)
          = (fst run, []).
Proof.
  apply (proj2 (cap_stops_consumption loads_braces (config_with (MaxInt 2))
                  [good 1; malformed 2; good 3; good 4] [] 0) 2).
  - reflexivity.
  - lia.
  - vm_compute. discriminate.
Defined.

Lemma only_acknowledged_messages_count_witness :
  exists evs,
    log (snd (process_message loads_braces (config_with MaxNone) db_ok
                (fst (malformed 7)) (init [] 0))) = [] ++ evs
    /\ existsb is_ack evs = false.
Proof.
  destruct (only_acknowledged_messages_count loads_braces (config_with MaxNone)
              db_ok (fst (malformed 7)) (init [] 0))
    as (evs & Hlog & _ & _ & _ & Hmal).
  exists evs. split; [exact Hlog |]. apply Hmal. reflexivity.
Defined.

End PipelineExamples.

(** * Configuration of the worker *)

Section Configuration.

Import Worker Props.

Lemma get_env_exits environ name dflt required :
  get_env environ name dflt required = SysExit 1
  <-> (required = true /\ environ !! name = None /\ dflt = None).
Proof.
  unfold get_env. split.
  - intros H. destruct (environ !! name), dflt, required;
      try discriminate H; auto.
  - now intros (-> & -> & ->).
Qed.

Lemma get_env_exit_status environ name dflt required code :
  get_env environ name dflt required = SysExit code -> code = 1.
Proof.
  unfold get_env.
  destruct (environ !! name), dflt, required; intros H; try discriminate H.
  now injection H as <-.
Qed.

Lemma get_env_default environ name dflt required :
  get_env environ name (Some dflt) required
  = Value (Some (default dflt (environ !! name))).
Proof. unfold get_env. now destruct (environ !! name). Qed.

Lemma int_env_default environ name dflt :
  int_env environ name dflt
  = match Py.int (default dflt (environ !! name)) with
    | Some n => Value n
    | None => Uncaught ValueError
    end.
Proof. unfold int_env. now rewrite get_env_default. Qed.

(** What lines 36-48 compute, in one expression. *)
Lemma load_config_value (environ : gmap string string) :
  load_config environ
  = match Py.int (default "5672" (environ !! "RABBITMQ_PORT")),
          Py.int (default "5432" (environ !! "POSTGRES_PORT")),
          read_max_messages environ with
    | Some broker_port, Some database_port, Value cap =>
        Value
          {| RABBITMQ_HOST := Some (default "localhost" (environ !! "RABBITMQ_HOST"));
             RABBITMQ_PORT := broker_port;
             RABBITMQ_USER := Some (default "guest" (environ !! "RABBITMQ_USER"));
             RABBITMQ_PASS := Some (default "guest" (environ !! "RABBITMQ_PASS"));
             POSTGRES_HOST := Some (default "localhost" (environ !! "POSTGRES_HOST"));
             POSTGRES_PORT := database_port;
             POSTGRES_DB := Some (default "payments_db" (environ !! "POSTGRES_DB"));
             POSTGRES_USER := Some (default "postgres" (environ !! "POSTGRES_USER"));
             POSTGRES_PASS := Some (default "postgres" (environ !! "POSTGRES_PASS"));
             QUEUE_NAME := Some (default "payments" (environ !! "QUEUE_NAME"));
             MAX_MESSAGES := cap |}
    | _, _, _ => Uncaught ValueError
    end.
Proof.
  unfold load_config. rewrite !get_env_default, !int_env_default.
  cbn [exit_bind].
  destruct (Py.int (default "5672" (environ !! "RABBITMQ_PORT"))) as [broker_port |];
    cbn [exit_bind]; [| reflexivity].
  destruct (Py.int (default "5432" (environ !! "POSTGRES_PORT"))) as [database_port |];
    cbn [exit_bind]; [| reflexivity].
  unfold read_max_messages.
  destruct (environ !! "MAX_MESSAGES") as [text |]; [| reflexivity].
  destruct (Py.truthy_str text); [| reflexivity].
  now destruct (Py.int text).
Qed.

(** C9, as the code has it. [get_env] exits, with status 1, only for a
    required value whose variable is absent and for which no default is
    given.  Every configuration value of the worker is read with a
    default, so loading the configuration never exits: an absent variable
    gives its default, the two ports and the cap being [int] of the text;
    the only way the configuration fails to load is a port or a cap that
    is set to a text [int] refuses, and then the process dies of an
    uncaught [ValueError]. *)
Theorem absent_variable_takes_default (environ : gmap string string) :
  (forall name dflt required,
     get_env environ name dflt required = SysExit 1
     <-> (required = true /\ environ !! name = None /\ dflt = None))
  /\ (forall name dflt required code,
        get_env environ name dflt required = SysExit code -> code = 1)
  /\ (forall code, load_config environ <> SysExit code)
  /\ load_config environ
     = match Py.int (default "5672" (environ !! "RABBITMQ_PORT")),
             Py.int (default "5432" (environ !! "POSTGRES_PORT")),
             read_max_messages environ with
       | Some broker_port, Some database_port, Value cap =>
           Value
             {| RABBITMQ_HOST := Some (default "localhost" (environ !! "RABBITMQ_HOST"));
                RABBITMQ_PORT := broker_port;
                RABBITMQ_USER := Some (default "guest" (environ !! "RABBITMQ_USER"));
                RABBITMQ_PASS := Some (default "guest" (environ !! "RABBITMQ_PASS"));
                POSTGRES_HOST := Some (default "localhost" (environ !! "POSTGRES_HOST"));
                POSTGRES_PORT := database_port;
                POSTGRES_DB := Some (default "payments_db" (environ !! "POSTGRES_DB"));
                POSTGRES_USER := Some (default "postgres" (environ !! "POSTGRES_USER"));
                POSTGRES_PASS := Some (default "postgres" (environ !! "POSTGRES_PASS"));
                QUEUE_NAME := Some (default "payments" (environ !! "QUEUE_NAME"));
                MAX_MESSAGES := cap |}
       | _, _, _ => Uncaught ValueError
       end
  /\ (environ !! "RABBITMQ_PORT" = None ->
      environ !! "POSTGRES_PORT" = None ->
      environ !! "MAX_MESSAGES" = None ->
      load_config environ
      = Value
          {| RABBITMQ_HOST := Some (default "localhost" (environ !! "RABBITMQ_HOST"));
             RABBITMQ_PORT := 5672;
             RABBITMQ_USER := Some (default "guest" (environ !! "RABBITMQ_USER"));
             RABBITMQ_PASS := Some (default "guest" (environ !! "RABBITMQ_PASS"));
             POSTGRES_HOST := Some (default "localhost" (environ !! "POSTGRES_HOST"));
             POSTGRES_PORT := 5432;
             POSTGRES_DB := Some (default "payments_db" (environ !! "POSTGRES_DB"));
             POSTGRES_USER := Some (default "postgres" (environ !! "POSTGRES_USER"));
             POSTGRES_PASS := Some (default "postgres" (environ !! "POSTGRES_PASS"));
             QUEUE_NAME := Some (default "payments" (environ !! "QUEUE_NAME"));
             MAX_MESSAGES := MaxNone |}).
Proof.
  split; [intros; apply get_env_exits |].
  split; [intros name dflt required code; apply get_env_exit_status |].
  split; [| split; [apply load_config_value |]].
  - intros code. rewrite load_config_value.
    destruct (Py.int (default "5672" (environ !! "RABBITMQ_PORT"))); [| discriminate].
    destruct (Py.int (default "5432" (environ !! "POSTGRES_PORT"))); [| discriminate].
    unfold read_max_messages.
    destruct (environ !! "MAX_MESSAGES") as [text |]; [| discriminate].
    destruct (Py.truthy_str text); [| discriminate].
    destruct (Py.int text); discriminate.
  - intros Hb Hd Hm. rewrite load_config_value.
    unfold read_max_messages. rewrite Hb, Hd, Hm. reflexivity.
Qed.

(** C9, as stated, fails: with every variable absent the configuration
    loads with the defaults and the process does not exit. *)
Lemma absent_variables_do_not_exit :
  Forall (fun name => (∅ : gmap string string) !! name = None) config_variables
  /\ load_config ∅ = Value (config_with MaxNone).
Proof.
  split; [| vm_compute; reflexivity].
  repeat constructor.
Qed.

(** [get_env] on a required value with no default and no variable, and a
    port that is not a number. *)
Lemma absent_variable_takes_default_witness :
  get_env ∅ "QUEUE_NAME" None true = SysExit 1
  /\ load_config (<["RABBITMQ_PORT" := "abc"%string]> ∅) = Uncaught ValueError.
Proof.
  split.
  - apply (proj1 (absent_variable_takes_default ∅)). repeat split.
  - rewrite (proj1 (proj2 (proj2 (proj2 (absent_variable_takes_default
               (<["RABBITMQ_PORT" := "abc"%string]> ∅)))))).
    vm_compute. reflexivity.
Defined.

End Configuration.

(** * More on workload names *)

Section NamingBounds.

Import Operator Props MoreProps.

Lemma str_take_length_min (n : nat) (s : string) :
  String.length (Py.str_take n s) = Nat.min n (String.length s).
Proof.
  revert s. induction n as [|n IH]; intros [|c s]; simpl; try reflexivity.
  now rewrite IH.
Qed.

(** X1. The workload name is [min (11 + |name|, 54) + 9] characters long;
    a name of at most 43 characters is kept whole between the
    "paymentjob-" prefix and the digest, and only a longer one is cut. *)
Theorem job_name_length (name namespace : string) :
  String.length (get_job_name name namespace)
  = (Nat.min (11 + String.length name) 54 + 9)%nat
  /\ ((String.length name <= 43)%nat ->
      get_job_name name namespace
      = "paymentjob-" +:+ name +:+ "-"
        +:+ Py.str_take 8 (Sha256.hexdigest (Py.encode (namespace +:+ "/" +:+ name)))).
Proof.
  set (base := "paymentjob-" +:+ name).
  assert (Hbase : String.length base = (11 + String.length name)%nat).
  { unfold base. now rewrite length_append. }
  assert (Hname : get_job_name name namespace
                  = Py.str_take 54 base +:+ "-"
                    +:+ Py.str_take 8
                          (Sha256.hexdigest (Py.encode (namespace +:+ "/" +:+ name)))).
  { unfold get_job_name. fold base.
    destruct (54 <? String.length base)%nat eqn:Hlen; [reflexivity |].
    apply Nat.ltb_ge in Hlen. now rewrite (str_take_all 54 base). }
  split.
  - rewrite Hname, !length_append, str_take_length_min, Hbase,
      short_hash_is_first_word.
    change (String.length "-") with 1%nat.
    change (String.length (Sha256.hex8 _)) with 8%nat. lia.
  - intros Hshort. rewrite Hname, (str_take_all 54 base) by lia. reflexivity.
Qed.

Lemma job_name_length_witness :
  get_job_name "checkout" "billing"
  = "paymentjob-" +:+ "checkout" +:+ "-"
    +:+ Py.str_take 8 (Sha256.hexdigest (Py.encode ("billing" +:+ "/" +:+ "checkout"))).
Proof. apply (proj2 (job_name_length "checkout" "billing")). cbn. lia. Defined.

End NamingBounds.

(** * The create handler *)

Section Create.

Import Operator Props Cluster MoreProps.

(** X2. The two derivations of the phase, in the create handler and in
    the timer, differ exactly for a workload with an active pod together
    with a completion or a failure. *)
Theorem create_and_timer_disagree_iff (js : V1JobStatus) :
  create_phase js <> timer_phase js
  <-> counter_pos (active js) = true
      /\ (counter_pos (succeeded js) = true \/ counter_pos (failed js) = true).
Proof.
  unfold create_phase, timer_phase.
  destruct (counter_pos (active js)), (counter_pos (succeeded js)),
    (counter_pos (failed js)); split;
    try (intros H; exfalso; now apply H);
    try (intros [H1 [H2 | H2]]; discriminate);
    try (intros _; discriminate); auto.
Qed.

(** X3. What the create handler does is decided by the lookup: it creates
    the workload only after a 404 and under the derived name, it creates
    nothing and posts nothing when the workload exists, it lets every
    other lookup error through; a refused creation is reported as phase
    Failed with the reason, not raised.  Every status it returns records
    the derived name and the time. *)
Theorem create_is_guarded_by_lookup (name namespace : string)
    (read : string -> string -> api_result V1JobStatus)
    (create : string -> string -> api_result unit) (now : string) :
  let job_name := get_job_name name namespace in
  match create_paymentjob name namespace read create now with
  | CreateRaised code =>
      code <> 404 /\ exists reason, read job_name namespace = ApiException code reason
  | CreateDone status created events =>
      status !! "jobName" = Some job_name
      /\ status !! "lastUpdateTime" = Some now
      /\ match created with
         | Some j =>
             j = job_name
             /\ (exists reason, read job_name namespace = ApiException 404 reason)
             /\ create namespace job_name = ApiOk tt
             /\ status !! "phase" = Some "Pending"%string
             /\ events = [KopfInfo "JobCreated" ("Created Job " +:+ job_name)]
         | None =>
             events = []
             /\ ((exists js, read job_name namespace = ApiOk js
                             /\ status !! "phase" = Some (create_phase js)
                             /\ status !! "message" = None)
                 \/ (exists reason refusal code,
                       read job_name namespace = ApiException 404 reason
                       /\ create namespace job_name = ApiException code refusal
                       /\ status !! "phase" = Some "Failed"%string
                       /\ status !! "message"
                          = Some ("Failed to create Job: " +:+ refusal)))
         end
  end.
Proof.
  cbv zeta. unfold create_paymentjob, update_paymentjob_status.
  rewrite get_job_name_truthy.
  destruct (read (get_job_name name namespace) namespace) as [js | code reason] eqn:Hread.
  - repeat split; try (simplify_map_eq; reflexivity).
    left. exists js. repeat split; simplify_map_eq; reflexivity.
  - destruct (Z.eqb_spec code 404) as [-> | Hcode]; cbn [negb].
    + destruct (create namespace (get_job_name name namespace))
        as [[] | code' refusal] eqn:Hcreate; cbn [Py.truthy_str append].
      * repeat split; eauto; simplify_map_eq; reflexivity.
      * repeat split; try (simplify_map_eq; reflexivity).
        right. exists reason, refusal, code'.
        repeat split; simplify_map_eq; reflexivity.
    + split; [assumption | eauto].
Qed.

Lemma create_on_existing (jobs : gmap (string * string) V1JobStatus)
    (name namespace now : string) (js : V1JobStatus) :
  jobs !! (namespace, get_job_name name namespace) = Some js ->
  create_on jobs name namespace now
  = (CreateDone
       (update_paymentjob_status (create_phase js) now
          (Some (get_job_name name namespace)) None)
       None [],
     jobs).
Proof.
  intros H. unfold create_on, create_paymentjob, read_namespaced_job.
  now rewrite H.
Qed.

Lemma create_on_absent (jobs : gmap (string * string) V1JobStatus)
    (name namespace now : string) :
  jobs !! (namespace, get_job_name name namespace) = None ->
  snd (create_on jobs name namespace now)
  = <[(namespace, get_job_name name namespace) := new_job_status]> jobs.
Proof.
  intros H.
  unfold create_on, create_paymentjob, read_namespaced_job, create_namespaced_job.
  now rewrite H.
Qed.

(** X4. Run twice for the same resource against a cluster, the create
    handler leaves one workload: after the first run the workload exists
    under the derived name, the second run creates nothing, posts
    nothing and leaves the cluster as it is, and no other Job is touched. *)
Theorem create_twice_leaves_one_workload
    (jobs : gmap (string * string) V1JobStatus) (name namespace now1 now2 : string) :
  let key := (namespace, get_job_name name namespace) in
  let first := create_on jobs name namespace now1 in
  let second := create_on (snd first) name namespace now2 in
  is_Some (snd first !! key)
  /\ snd second = snd first
  /\ (exists status, fst second = CreateDone status None [])
  /\ (forall k, k <> key -> snd first !! k = jobs !! k).
Proof.
  cbv zeta.
  destruct (jobs !! (namespace, get_job_name name namespace)) as [js |] eqn:Hjobs.
  - rewrite (create_on_existing jobs name namespace now1 js Hjobs). cbn [snd].
    rewrite (create_on_existing jobs name namespace now2 js Hjobs). cbn [fst snd].
    repeat split; eauto.
  - rewrite (create_on_absent jobs name namespace now1 Hjobs).
    assert (Hnew : <[(namespace, get_job_name name namespace) := new_job_status]> jobs
                   !! (namespace, get_job_name name namespace) = Some new_job_status)
      by apply lookup_insert_eq.
    rewrite (create_on_existing _ name namespace now2 _ Hnew). cbn [fst snd].
    repeat split; eauto.
    intros k Hk. now rewrite lookup_insert_ne.
Qed.

End Create.

(** * More on the timer handler *)

Section TimerMore.

Import Operator Props MoreProps.

Variables name namespace : string.

(** ** The failure message *)

Lemma failed_condition_message_first pre c post :
  Forall (fun c' => is_failed_condition c' = false) pre ->
  is_failed_condition c = true ->
  failed_condition_message (pre ++ c :: post) = Some (condition_message c).
Proof.
  unfold is_failed_condition. intros Hpre Hc.
  induction Hpre as [| c' pre Hc' _ IH]; cbn [app failed_condition_message].
  - rewrite Hc. unfold condition_message. now repeat case_match.
  - now rewrite Hc'.
Qed.

Lemma failed_condition_message_none cs :
  Forall (fun c' => is_failed_condition c' = false) cs ->
  failed_condition_message cs = None.
Proof.
  unfold is_failed_condition.
  induction 1 as [| c' cs Hc' _ IH]; cbn [failed_condition_message];
    [reflexivity | now rewrite Hc'].
Qed.

Lemma condition_message_truthy c : Py.truthy_str (condition_message c) = true.
Proof.
  unfold condition_message. destruct (cond_message c) as [m |]; [| reflexivity].
  destruct (Py.truthy_str m) eqn:Hm; [assumption | reflexivity].
Qed.

(** X5. For a failed workload the status message is that of the first
    condition of type Failed with status True ("Job failed" when that
    condition carries no message); without such a condition it is "Job
    failed after N attempt(s)" with the failed count. *)
Theorem failure_message_source (js : V1JobStatus) (n : Z) :
  counter_pos (succeeded js) = false ->
  failed js = Some n ->
  0 < n ->
  (forall pre c post,
     conditions js = Some (pre ++ c :: post) ->
     Forall (fun c' => is_failed_condition c' = false) pre ->
     is_failed_condition c = true ->
     timer_message js = Some (condition_message c))
  /\ ((conditions js = None
       \/ exists cs, conditions js = Some cs
                     /\ Forall (fun c' => is_failed_condition c' = false) cs) ->
      timer_message js
      = Some ("Job failed after " +:+ pretty n +:+ " attempt(s)")).
Proof.
  intros Hs Hf Hn.
  assert (Hpos : counter_pos (failed js) = true).
  { rewrite Hf. cbn. destruct (Z.eqb_spec n 0); [lia |]. cbn. now apply Z.gtb_lt. }
  unfold timer_message. rewrite Hs, Hpos, Hf. cbn [default]. split.
  - intros pre c post Hc Hpre Hfc. rewrite Hc.
    assert (Hm : failed_condition_message (pre ++ c :: post)
                 = Some (condition_message c))
      by now apply failed_condition_message_first.
    destruct (pre ++ c :: post) as [| c0 cs] eqn:Hcs;
      [now destruct pre |].
    rewrite Hm. cbn [truthy_opt_str]. now rewrite condition_message_truthy.
  - intros [Hnone | (cs & Hc & Hall)].
    + now rewrite Hnone.
    + rewrite Hc. destruct cs as [| c0 cs]; [reflexivity |].
      now rewrite (failed_condition_message_none _ Hall).
Qed.

(** The message the timer derives is never empty. *)
Lemma timer_message_truthy (js : V1JobStatus) :
  exists m, timer_message js = Some m /\ Py.truthy_str m = true.
Proof.
  unfold timer_message.
  destruct (counter_pos (succeeded js)); [eauto |].
  destruct (counter_pos (failed js)).
  - match goal with
    | |- context [truthy_opt_str ?x] => destruct x as [m |] eqn:Hm
    end; cbn [truthy_opt_str].
    + destruct (Py.truthy_str m) eqn:Ht; eauto.
    + eauto.
  - destruct (counter_pos (active js)); eauto.
Qed.

(** ** What a tick writes and posts *)

(** What a tick that changes the phase writes. *)
Lemma monitor_changed_stamps (status : gmap string string)
    (read : string -> string -> api_result V1JobStatus) (now1 now2 : string)
    (js : V1JobStatus) :
  read (timer_job_name name namespace status) namespace = ApiOk js ->
  timer_phase js <> current_phase status ->
  exists patch events m,
    monitor_job_status name namespace status read now1 now2 = TimerDone patch events
    /\ patch !! "phase" = Some (timer_phase js)
    /\ patch !! "lastUpdateTime" = Some now1
    /\ patch !! "jobName" = Some (timer_job_name name namespace status)
    /\ patch !! "message" = Some m /\ Py.truthy_str m = true
    /\ patch !! "completionTime"
       = (if is_terminal (timer_phase js) then Some now2 else None)
    /\ patch !! "startTime"
       = (if String.eqb (timer_phase js) "Running"
             && negb (truthy_opt_str (status !! "startTime"))
          then Some now2 else None).
Proof.
  intros Hread Hne. unfold monitor_job_status. rewrite Hread.
  apply String.eqb_neq in Hne. rewrite Hne. cbn [negb].
  destruct (timer_message_truthy js) as (m & -> & Hm). rewrite Hm.
  eexists _, _, m. split; [reflexivity |].
  unfold is_terminal.
  destruct (timer_phase_cases js) as [-> | [-> | [-> | ->]]]; cbn [String.eqb Ascii.eqb Bool.eqb andb orb];
    destruct (truthy_opt_str (status !! "startTime")); cbn [negb andb];
    repeat split; simplify_map_eq; auto.
Qed.

(** X6. A tick that changes the phase writes the new phase, the time, the
    workload name and a non-empty message; it writes [completionTime]
    exactly when the new phase is Succeeded or Failed, and [startTime]
    exactly when the new phase is Running and no start time is recorded. *)
Theorem changed_tick_patch (status : gmap string string)
    (read : string -> string -> api_result V1JobStatus) (now1 now2 : string)
    (js : V1JobStatus) :
  read (timer_job_name name namespace status) namespace = ApiOk js ->
  timer_phase js <> current_phase status ->
  exists patch events m,
    monitor_job_status name namespace status read now1 now2 = TimerDone patch events
    /\ patch !! "phase" = Some (timer_phase js)
    /\ patch !! "lastUpdateTime" = Some now1
    /\ patch !! "jobName" = Some (timer_job_name name namespace status)
    /\ patch !! "message" = Some m /\ Py.truthy_str m = true
    /\ patch !! "completionTime"
       = (if is_terminal (timer_phase js) then Some now2 else None)
    /\ patch !! "startTime"
       = (if String.eqb (timer_phase js) "Running"
             && negb (truthy_opt_str (status !! "startTime"))
          then Some now2 else None).
Proof. apply monitor_changed_stamps. Qed.

(** X7. A tick posts at most one event: the information JobSucceeded when
    it changes the phase to Succeeded, the warning JobFailed, carrying the
    status message, when it changes the phase to Failed, and nothing
    otherwise. *)
Theorem tick_events (status : gmap string string)
    (read : string -> string -> api_result V1JobStatus) (now1 now2 : string)
    (patch : gmap string string) (events : list kopf_event) :
  monitor_job_status name namespace status read now1 now2 = TimerDone patch events ->
  (patch !! "phase" = Some "Succeeded"%string ->
     events = [KopfInfo "JobSucceeded"
                 ("Job " +:+ timer_job_name name namespace status
                  +:+ " completed successfully")])
  /\ (patch !! "phase" = Some "Failed"%string ->
        exists m, patch !! "message" = Some m /\ events = [KopfWarn "JobFailed" m])
  /\ (patch !! "phase" <> Some "Succeeded"%string ->
      patch !! "phase" <> Some "Failed"%string -> events = []).
Proof.
  unfold monitor_job_status.
  destruct (read (timer_job_name name namespace status) namespace)
    as [js | code reason].
  - destruct (negb (timer_phase js =? current_phase status)%string).
    + destruct (timer_message_truthy js) as (m & -> & Hm). rewrite Hm.
      destruct (timer_phase_cases js) as [-> | [-> | [-> | ->]]];
        cbn [String.eqb Ascii.eqb Bool.eqb andb orb];
        destruct (truthy_opt_str (status !! "startTime")); cbn [negb andb];
        intros [= <- <-]; repeat split; intros; simplify_map_eq; eauto.
    + intros [= <- <-]. repeat split; intros; simplify_map_eq; eauto.
  - destruct (code =? 404); [| discriminate].
    intros [= <- <-]. repeat split; intros; simplify_map_eq; eauto.
Qed.

(** ** Over sequences of ticks *)

Lemma tick_keeps_start_time status w t :
  status !! "startTime" = Some t ->
  Py.truthy_str t = true ->
  tick name namespace status w !! "startTime" = Some t.
Proof.
  intros Ht Htruthy.
  destruct (tw_read w (timer_job_name name namespace status) namespace)
    as [js | code reason] eqn:Hread.
  - unfold tick.
    destruct (String.eqb_spec (timer_phase js) (current_phase status)) as [Heq | Hne].
    + rewrite (monitor_unchanged _ _ _ _ _ _ js Hread Heq).
      now rewrite (left_id_L ∅ (∪)).
    + destruct (monitor_changed_stamps status _ (tw_now1 w) (tw_now2 w) js Hread Hne)
        as (patch & events & m & -> & _ & _ & _ & _ & _ & _ & Hstart).
      rewrite Ht in Hstart. cbn [truthy_opt_str] in Hstart.
      rewrite Htruthy, andb_false_r in Hstart.
      now rewrite lookup_union_r.
  - now rewrite (tick_not_found _ _ _ _ _ _ Hread).
Qed.

(** X8. Once a start time is recorded, no sequence of ticks changes it,
    whatever the workload does in between. *)
Theorem start_time_is_kept (status : gmap string string) (ws : list tick_world)
    (t : string) :
  status !! "startTime" = Some t ->
  Py.truthy_str t = true ->
  Forall (fun st : gmap string string => st !! "startTime" = Some t)
    (run_ticks name namespace status ws).
Proof.
  intros Ht Htruthy. revert status Ht.
  induction ws as [| w ws IH]; intros status Ht; cbn [run_ticks];
    constructor.
  - now apply tick_keeps_start_time.
  - apply IH. now apply tick_keeps_start_time.
Qed.

(** X9. Every tick of a sequence looks the workload up under the same
    name: the name recorded in the status when the sequence starts, or
    else the derived one, which the first patch then records. *)
Theorem lookup_name_is_stable (status : gmap string string) (ws : list tick_world) :
  Forall (fun st => timer_job_name name namespace st
                    = timer_job_name name namespace status)
    (run_ticks name namespace status ws).
Proof.
  revert status. induction ws as [| w ws IH]; intros status; cbn [run_ticks];
    constructor.
  - apply tick_job_name.
  - specialize (IH (tick name namespace status w)).
    rewrite tick_job_name in IH. exact IH.
Qed.

(** X10. While the workload cannot be read (not found, or any other API
    error), the ticks leave the status exactly as it was. *)
Theorem unreadable_ticks_change_nothing (status : gmap string string)
    (ws : list tick_world) :
  Forall (fun w => exists code reason,
            tw_read w (timer_job_name name namespace status) namespace
            = ApiException code reason) ws ->
  Forall (fun st => st = status) (run_ticks name namespace status ws).
Proof.
  induction 1 as [| w ws (code & reason & Hread) _ IH]; cbn [run_ticks];
    [constructor |].
  rewrite (tick_not_found _ _ _ _ _ _ Hread). now constructor.
Qed.

End TimerMore.

Section TimerMoreExamples.

Import Operator Props MoreProps.

Lemma failure_message_source_witness :
  timer_message gave_up = Some "BackoffLimitExceeded"%string.
Proof.
  apply (proj1 (failure_message_source gave_up 4 eq_refl eq_refl eq_refl)
           [ {| cond_type := "Complete"; cond_status := "False";
                cond_message := None |} ]
           {| cond_type := "Failed"; cond_status := "True";
              cond_message := Some "BackoffLimitExceeded"%string |}
           [] eq_refl).
  - repeat constructor.
  - reflexivity.
Defined.

Lemma changed_tick_patch_witness :
  exists patch events m,
    monitor_job_status "checkout" "billing" ∅
      (job_with (counters (Some 1) None None))
      "2024-01-01T00:00:10Z" "2024-01-01T00:00:11Z"
    = TimerDone patch events
    /\ patch !! "message" = Some m
    /\ patch !! "startTime" = Some "2024-01-01T00:00:11Z"%string
    /\ patch !! "completionTime" = None.
Proof.
  destruct (changed_tick_patch "checkout" "billing" ∅
              (job_with (counters (Some 1) None None))
              "2024-01-01T00:00:10Z" "2024-01-01T00:00:11Z"
              (counters (Some 1) None None) eq_refl)
    as (patch & events & m & Hrun & _ & _ & _ & Hm & _ & Hc & Hs).
  { vm_compute. discriminate. }
  exists patch, events, m. repeat split; assumption.
Defined.

Lemma tick_events_witness :
  exists patch events m,
    monitor_job_status "checkout" "billing" ∅
      (job_with (counters None None (Some 2)))
      "2024-01-01T00:00:10Z" "2024-01-01T00:00:10Z"
    = TimerDone patch events
    /\ patch !! "message" = Some m
    /\ events = [KopfWarn "JobFailed" m].
Proof.
  destruct (monitor_job_status "checkout" "billing" ∅
              (job_with (counters None None (Some 2)))
              "2024-01-01T00:00:10Z" "2024-01-01T00:00:10Z")
    as [code | patch events] eqn:Hrun; [vm_compute in Hrun; discriminate Hrun |].
  destruct (tick_events _ _ _ _ _ _ _ _ Hrun) as (_ & Hfailed & _).
  destruct Hfailed as (m & Hm & Hev).
  { vm_compute in Hrun. injection Hrun as <- _. vm_compute. reflexivity. }
  exists patch, events, m. auto.
Defined.

Lemma start_time_is_kept_witness :
  Forall (fun st : gmap string string =>
            st !! "startTime" = Some "2024-01-01T00:00:10Z"%string)
    (run_ticks "checkout" "billing"
       (<["startTime" := "2024-01-01T00:00:10Z"%string]>
          (<["phase" := "Running"%string]> ∅))
       [tick_at (counters (Some 0) None None) "2024-01-01T00:00:20Z";
        tick_at (counters (Some 1) None None) "2024-01-01T00:00:30Z"]).
Proof.
  apply (start_time_is_kept "checkout" "billing"); [vm_compute |]; reflexivity.
Defined.

Lemma unreadable_ticks_change_nothing_witness :
  Forall (fun st : gmap string string => st = <["phase" := "Pending"%string]> ∅)
    (run_ticks "checkout" "billing" (<["phase" := "Pending"%string]> ∅)
       [ {| tw_read := no_job; tw_now1 := "2024-01-01T00:00:10Z";
            tw_now2 := "2024-01-01T00:00:10Z" |} ]).
Proof.
  apply (unreadable_ticks_change_nothing "checkout" "billing").
  repeat constructor. now exists 404, "Not Found"%string.
Defined.

End TimerMoreExamples.

(** * Decimal text of an integer *)

Section IntRoundTrip.

Import Props MoreProps.








End IntRoundTrip.

(** * The workload builder *)

Section Builder.

Import Operator Workload Props MoreProps.

(** X11. Credentials never appear in the workload: the four credential
    variables carry no literal value, only a reference to the key
    "username" or "password" of the secret the spec names; every other
    variable is a literal. *)
Theorem credentials_are_referenced (spec : paymentjob_spec) :
  Forall
    (fun e =>
       if is_credential (env_name e) then
         env_value e = None
         /\ exists ref, env_value_from e = Some ref
                        /\ (secret_name ref = rmq_secret_name (rabbitmq spec)
                            \/ secret_name ref = pg_secret_name (postgres spec))
                        /\ (secret_key ref = "username"%string
                            \/ secret_key ref = "password"%string)
       else env_value_from e = None /\ is_Some (env_value e))
    (build_env spec)
  /\ Forall (fun name => name ∈ map env_name (build_env spec))
       ["RABBITMQ_USER"; "RABBITMQ_PASS"; "POSTGRES_USER"; "POSTGRES_PASS"]%string.
Proof.
  unfold build_env. split.
  - destruct (maxMessages spec); repeat constructor; cbn; eauto 8.
  - destruct (maxMessages spec); cbn [map app env_name env_secret env_literal];
      repeat constructor; set_solver.
Qed.

(** X12. The variables of the workload have distinct names, they include
    every variable the worker reads its configuration from, and
    MAX_MESSAGES is among them exactly when the spec sets [maxMessages]. *)
Theorem workload_sets_worker_variables (spec : paymentjob_spec) :
  NoDup (map env_name (build_env spec))
  /\ Forall (fun name => name ∈ map env_name (build_env spec)) config_variables
  /\ ("MAX_MESSAGES"%string ∈ map env_name (build_env spec)
      <-> is_Some (maxMessages spec)).
Proof.
  unfold build_env, config_variables.
  destruct (maxMessages spec) as [n |];
    cbn [map app env_name env_secret env_literal].
  - split; [| split].
    + apply NoDup_ListNoDup. repeat constructor; cbn;
        intros H; repeat (destruct H as [H | H]; [discriminate H |]); exact H.
    + repeat constructor; set_solver.
    + split; [eauto | set_solver].
  - split; [| split].
    + apply NoDup_ListNoDup. repeat constructor; cbn;
        intros H; repeat (destruct H as [H | H]; [discriminate H |]); exact H.
    + repeat constructor; set_solver.
    + split; [| intros [? [=]]].
      intros H. exfalso. apply list_elem_of_In in H. cbn in H.
      repeat (destruct H as [H | H]; [discriminate H |]). exact H.
Qed.


End Builder.

Section BuilderExamples.

Import Operator Workload Props MoreProps.


(** The configuration it loads, computed. *)
Example capped_worker_config :
  Worker.load_config
    <$> container_environ checkout_secrets (build_env capped_spec) ∅
  = Some (Worker.Value
            {| Worker.RABBITMQ_HOST := Some "rabbitmq"%string;
               Worker.RABBITMQ_PORT := 5672;
               Worker.RABBITMQ_USER := Some "broker-user"%string;
               Worker.RABBITMQ_PASS := Some "broker-pass"%string;
               Worker.POSTGRES_HOST := Some "postgres"%string;
               Worker.POSTGRES_PORT := 6432;
               Worker.POSTGRES_DB := Some "payments_db"%string;
               Worker.POSTGRES_USER := Some "db-user"%string;
               Worker.POSTGRES_PASS := Some "db-pass"%string;
               Worker.QUEUE_NAME := Some "payments"%string;
               Worker.MAX_MESSAGES := Worker.MaxInt 5 |}).
Proof. vm_compute. reflexivity. Qed.

End BuilderExamples.

(** * More on the delivery pipeline *)

Section PipelineMore.

Import Worker Props MoreProps.

Context {J : Type}.
Variable json_loads : list Z -> outcome J.
Variable cfg : config.

Abbreviation handle := (process_message json_loads cfg).
Abbreviation consume := (start_consuming json_loads cfg).
Abbreviation state := (@wstate J).

(** One goal per way the parse and the insert can end. *)
Ltac handler_cases w d :=
  unfold process_message, try_except, bind, parse_body, insert_payment,
    execute_insert, commit, basic_ack, basic_nack, stop_consuming, reconnect,
    count_message, get_messages_processed, emit, ret, raise;
  destruct (Py.decode_utf8 (body d)) as [?text |];
    [destruct (json_loads text) as [?payload | []] |];
  destruct (dw_insert w) as [| [] | []];
  cbn -[cap_reached Z.add];
  try (destruct (cap_reached _ _); cbn -[Z.add]).

(** X15. When the insert fails for a body that parsed, the message is
    negative-acknowledged with requeue, nothing is persisted or counted
    and the consumer goes on; a new database connection is tried only
    after a [psycopg2.Error], and the connection is replaced only when
    that succeeds. *)
Theorem failed_insert_requeues w d (s : state) (e : exn) :
  parses json_loads d = true ->
  insert_error w = Some e ->
  log (snd (handle w d s))
  = log s ++ EvNack (delivery_tag d) true
             :: (if is_psycopg2_error e then [EvReconnect (dw_reconnect_ok w)] else [])
  /\ payments (snd (handle w d s)) = payments s
  /\ messages_processed (snd (handle w d s)) = messages_processed s
  /\ consuming (snd (handle w d s)) = consuming s
  /\ pg_conn (snd (handle w d s))
     = if is_psycopg2_error e && dw_reconnect_ok w then S (pg_conn s) else pg_conn s.
Proof.
  unfold parses, insert_error.
  handler_cases w d; intros Hp He; try discriminate Hp; try discriminate He;
    injection He as <-; rewrite <- ?app_assoc; cbn [app is_psycopg2_error andb];
    repeat split; try reflexivity; now destruct (dw_reconnect_ok w).
Qed.

(** X16. What is persisted for a delivery that parses, when the database
    takes the row: one row with the next id of the sequence, the clock
    reading, the parsed payload, the message id ([None] for an absent or
    empty one) and the configured queue name; the commit and the
    acknowledgement follow in that order. *)
Theorem persisted_row w d (s : state) text value :
  Py.decode_utf8 (body d) = Some text ->
  json_loads text = Ret value ->
  dw_insert w = DbOk ->
  payments (snd (handle w d s))
  = payments s
    ++ [ {| id := payments_id_seq s + 1; received_at := dw_utcnow w;
            payload := value; row_message_id := normal_message_id d;
            source_queue := QUEUE_NAME cfg |} ]
  /\ exists rest,
       log (snd (handle w d s))
       = log s ++ EvCommit (delivery_tag d) (payments_id_seq s + 1)
                  :: EvAck (delivery_tag d) :: rest
       /\ (rest = [] \/ rest = [EvStopConsuming]).
Proof.
  intros Hd Hj Hdb.
  unfold process_message, try_except, bind, parse_body, insert_payment,
    execute_insert, commit, basic_ack, basic_nack, stop_consuming,
    count_message, get_messages_processed, emit, ret.
  rewrite Hd, Hj, Hdb. cbn -[cap_reached Z.add].
  destruct (cap_reached _ _); cbn -[Z.add]; rewrite <- ?app_assoc; cbn [app];
    (split; [reflexivity |]); eexists; (split; [reflexivity |]); auto.
Qed.




(** With a cap [N] and fewer than [N] deliveries left that can be
    persisted, the whole stream is consumed and the consumer goes on. *)
Lemma start_consuming_below_cap N stream (s : state) :
  MAX_MESSAGES cfg = MaxInt N ->
  consuming s = true ->
  messages_processed s + count_persistable json_loads stream < N ->
  snd (consume stream s) = []
  /\ consuming (fst (consume stream s)) = true
  /\ count_acks (log (fst (consume stream s)))
     = count_acks (log s) + count_persistable json_loads stream.
Proof.
  intros Hcap. revert s. induction stream as [| [d w] rest IH]; intros s Hs Hlt.
  - cbn. repeat split; [assumption | unfold count_persistable; cbn; lia].
  - cbn [start_consuming]. rewrite Hs.
    unfold count_persistable in *. cbn [List.filter] in *.
    destruct (persistable json_loads (d, w)) eqn:Hp; cbn [List.length] in *.
    + destruct (process_message_persistable json_loads cfg w d s Hp)
        as (Hmp & Hacks & Hcons).
      rewrite Hcap in Hcons. cbn [cap_reached] in Hcons.
      destruct (Z.leb_spec N (messages_processed s + 1)) as [Hreach | Hbelow]; [lia |].
      rewrite andb_false_r, Hs in Hcons.
      destruct (IH _ Hcons) as (Hrest & Hc & Hn); [lia |].
      repeat split; [assumption | assumption | lia].
    + destruct (process_message_not_persistable json_loads cfg w d s Hp)
        as (Hmp & Hacks & Hcons & _).
      rewrite Hs in Hcons.
      destruct (IH _ Hcons) as (Hrest & Hc & Hn); [lia |].
      repeat split; [assumption | assumption | lia].
Qed.

(** X18. With a cap [N >= 1] a fresh worker acknowledges
    [min N p] messages, where [p] is the number of deliveries of the
    stream that parse and are committed: never more than the cap, and all
    of them when they are fewer than the cap, in which case the consumer
    is still consuming at the end of the stream. *)
Theorem acknowledgements_under_cap N stream rows seq :
  MAX_MESSAGES cfg = MaxInt N ->
  1 <= N ->
  count_acks (log (fst (consume stream (init rows seq))))
  = Z.min N (count_persistable json_loads stream)
  /\ (count_persistable json_loads stream < N ->
      snd (consume stream (init rows seq)) = []
      /\ consuming (fst (consume stream (init rows seq))) = true).
Proof.
  intros Hcap HN.
  destruct (Z.lt_ge_cases (count_persistable json_loads stream) N) as [Hlt | Hge].
  - destruct (start_consuming_below_cap N stream (init rows seq) Hcap eq_refl)
      as (Hrest & Hc & Hn).
    { cbn. lia. }
    change (count_acks (log (init rows seq))) with 0 in Hn.
    split; [lia | auto].
  - destruct (start_consuming_cap json_loads cfg N stream (init rows seq) Hcap eq_refl)
      as (Ha & _).
    { cbn. lia. }
    { cbn. lia. }
    change (count_acks (log (init rows seq))) with 0 in Ha.
    change (messages_processed (init rows seq)) with 0 in Ha.
    split; [lia | intros; lia].
Qed.

Lemma start_consuming_negative_cap n stream (s : state) :
  MAX_MESSAGES cfg = MaxInt n ->
  n < 0 ->
  consuming s = true ->
  0 <= messages_processed s ->
  1 <= count_persistable json_loads stream ->
  count_acks (log (fst (consume stream s))) = count_acks (log s) + 1
  /\ consuming (fst (consume stream s)) = false.
Proof.
  intros Hcap Hn. revert s.
  induction stream as [| [d w] rest IH]; intros s Hs Hmp Hp1.
  - unfold count_persistable in Hp1. cbn in Hp1. lia.
  - cbn [start_consuming]. rewrite Hs.
    unfold count_persistable in *. cbn [List.filter] in *.
    destruct (persistable json_loads (d, w)) eqn:Hp; cbn [List.length] in *.
    + destruct (process_message_persistable json_loads cfg w d s Hp)
        as (_ & Hacks & Hcons).
      rewrite Hcap in Hcons. cbn [cap_reached] in Hcons.
      assert (Hne : (n =? 0) = false) by (apply Z.eqb_neq; lia).
      assert (Hle : (n <=? messages_processed s + 1) = true) by (apply Z.leb_le; lia).
      rewrite Hne, Hle in Hcons. cbn in Hcons.
      rewrite (start_consuming_stopped json_loads cfg rest _ Hcons). cbn [fst].
      split; assumption.
    + destruct (process_message_not_persistable json_loads cfg w d s Hp)
        as (Hmp' & Hacks & Hcons & _).
      rewrite Hs in Hcons.
      destruct (IH _ Hcons) as (Ha & Hc); [lia | lia |].
      split; [lia | assumption].
Qed.

(** X19. A negative cap stops a fresh worker at the first message it
    acknowledges, whatever the cap's value. *)
Theorem negative_cap_stops_after_one n stream rows seq :
  MAX_MESSAGES cfg = MaxInt n ->
  n < 0 ->
  1 <= count_persistable json_loads stream ->
  count_acks (log (fst (consume stream (init rows seq)))) = 1
  /\ consuming (fst (consume stream (init rows seq))) = false.
Proof.
  intros Hcap Hn Hp.
  destruct (start_consuming_negative_cap n stream (init rows seq) Hcap Hn eq_refl)
    as (Ha & Hc); [cbn; lia | assumption |].
  split; [exact Ha | exact Hc].
Qed.

End PipelineMore.

Section PipelineMoreExamples.

Import Worker Props MoreProps.

Lemma invalid_json_is_rejected_witness :
  log (snd (process_message loads_braces (config_with MaxNone) db_ok
              (fst (malformed 7)) (init [] 0)))
  = [EvNack 7 false].
Proof.
  rewrite (proj1 (invalid_json_is_rejected loads_braces (config_with MaxNone) db_ok
                    (fst (malformed 7)) (init [] 0) [123] eq_refl));
    reflexivity.
Defined.

Lemma failed_insert_requeues_witness :
  log (snd (process_message loads_braces (config_with MaxNone) storage_down
              (fst (good 3)) (init [] 0)))
  = [EvNack 3 true; EvReconnect false].
Proof.
  apply (failed_insert_requeues loads_braces (config_with MaxNone) storage_down
           (fst (good 3)) (init [] 0) Psycopg2Error); reflexivity.
Defined.

Lemma persisted_row_witness :
  payments (snd (process_message loads_braces (config_with MaxNone) db_ok
                   (fst (good 3)) (init [] 41)))
  = [ {| id := 42; received_at := 1700000000; payload := tt;
         row_message_id := None; source_queue := Some "payments"%string |} ].
Proof.
  apply (persisted_row loads_braces (config_with MaxNone) db_ok
           (fst (good 3)) (init [] 41) [123; 125] tt); reflexivity.
Defined.

Lemma acknowledgements_under_cap_witness :
  count_acks
    (log (fst (start_consuming loads_braces (config_with (MaxInt 5))
                 [good 1; malformed 2; good 3] (init [] 0))))
  = Z.min 5 (count_persistable loads_braces [good 1; malformed 2; good 3]).
Proof.
  apply (acknowledgements_under_cap loads_braces (config_with (MaxInt 5)) 5
           [good 1; malformed 2; good 3] [] 0); [reflexivity | lia].
Defined.

Lemma negative_cap_stops_after_one_witness :
  count_acks
    (log (fst (start_consuming loads_braces (config_with (MaxInt (-3)))
                 [malformed 1; good 2; good 3] (init [] 0))))
  = 1.
Proof.
  apply (negative_cap_stops_after_one loads_braces (config_with (MaxInt (-3))) (-3)
           [malformed 1; good 2; good 3] [] 0); [reflexivity | lia |].
  vm_compute. discriminate.
Defined.

End PipelineMoreExamples.

(** * Connecting with retries *)

Section Retries.

Import Startup Props MoreProps.

Variable svc : service.

(** The loop from attempt [attempt] with [remaining] iterations left, in a
    loop whose last attempt is number [max_retries]. *)
Lemma retry_loop_bounds (max_retries remaining attempt : nat)
    (answers : nat -> connect_answer) :
  (1 <= remaining)%nat ->
  (attempt + remaining = max_retries + 1)%nat ->
  let '(events, result) := retry_loop svc max_retries remaining attempt answers in
  result <> LoopEnded
  /\ 1 <= attempts events <= Z.of_nat remaining
  /\ slept events = retry_delay * (attempts events - 1)
  /\ forallb (concerns svc) events = true.
Proof.
  revert attempt. induction remaining as [| remaining IH]; intros attempt Hr Hsum;
    [lia |].
  cbn [retry_loop].
  destruct (answers attempt).
  - unfold attempts. cbn. repeat split; try discriminate; try lia. now destruct svc.
  - destruct (Nat.ltb_spec attempt max_retries) as [Hlt | Hge].
    + specialize (IH (S attempt)).
      destruct (retry_loop svc max_retries remaining (S attempt) answers)
        as [events result].
      destruct IH as (Hres & Hatt & Hslept & Hall); [lia | lia |].
      unfold attempts in *. cbn [List.filter is_attempt List.length slept forallb].
      rewrite Hslept, Hall. unfold retry_delay.
      repeat split; try assumption; try lia. now destruct svc.
    + unfold attempts. cbn. repeat split; try discriminate; try lia. now destruct svc.
  - unfold attempts. cbn. repeat split; try discriminate; try lia. now destruct svc.
Qed.

(** X20. Whatever the service answers, connecting makes between 1 and 10
    attempts, sleeps 5 seconds between two attempts and never after the
    last one (45 seconds at most), and ends with a connection or with an
    exception. *)
Theorem connecting_is_bounded (answers : nat -> connect_answer) :
  let '(events, result) := connect_with_retries svc answers in
  result <> LoopEnded
  /\ 1 <= attempts events <= 10
  /\ slept events = 5 * (attempts events - 1)
  /\ slept events <= 45.
Proof.
  unfold connect_with_retries.
  pose proof (retry_loop_bounds 10 10 1 answers) as H.
  destruct (retry_loop svc 10 10 1 answers) as [events result].
  destruct H as (Hres & Hatt & Hslept & _); [lia | lia |].
  unfold retry_delay in Hslept. repeat split; try assumption; lia.
Qed.

Lemma retry_loop_connects (max_retries : nat) (answers : nat -> connect_answer)
    (k : nat) (d : nat) :
  forall remaining attempt,
    (attempt + d = k)%nat ->
    (d < remaining)%nat ->
    (k <= max_retries)%nat ->
    (forall j, (attempt <= j < k)%nat -> answers j = Refused) ->
    answers k = Connected ->
    let '(events, result) := retry_loop svc max_retries remaining attempt answers in
    result = GotConnection k
    /\ attempts events = Z.of_nat d + 1
    /\ slept events = retry_delay * Z.of_nat d.
Proof.
  induction d as [| d IH]; intros remaining attempt Hk Hrem Hmax Href Hconn;
    (destruct remaining as [| remaining]; [lia |]); cbn [retry_loop].
  - replace attempt with k by lia. rewrite Hconn. unfold attempts. cbn. repeat split; lia.
  - rewrite (Href attempt) by lia.
    destruct (Nat.ltb_spec attempt max_retries) as [_ | Hge]; [| lia].
    specialize (IH remaining (S attempt)).
    destruct (retry_loop svc max_retries remaining (S attempt) answers)
      as [events result].
    destruct IH as (Hres & Hatt & Hslept); try lia; try assumption.
    { intros j Hj. apply Href. lia. }
    unfold attempts in *. cbn [List.filter is_attempt List.length slept].
    unfold retry_delay in *. repeat split; [assumption | lia | lia].
Qed.

(** X21. When the service refuses the attempts before the [k]-th and
    accepts the [k]-th, with [k] at most 10, connecting returns the
    connection of attempt [k] after [k] attempts and [5 (k - 1)] seconds
    of sleep. *)
Theorem connects_at_first_success (answers : nat -> connect_answer) (k : nat) :
  (1 <= k <= 10)%nat ->
  (forall j, (1 <= j < k)%nat -> answers j = Refused) ->
  answers k = Connected ->
  let '(events, result) := connect_with_retries svc answers in
  result = GotConnection k
  /\ attempts events = Z.of_nat k
  /\ slept events = 5 * (Z.of_nat k - 1).
Proof.
  intros Hk Href Hconn. unfold connect_with_retries.
  pose proof (retry_loop_connects 10 answers k (k - 1) 10 1) as H.
  destruct (retry_loop svc 10 10 1 answers) as [events result].
  destruct H as (Hres & Hatt & Hslept); try lia; try assumption.
  unfold retry_delay in Hslept. repeat split; [assumption | lia | lia].
Qed.

Lemma retry_loop_gives_up (max_retries : nat) (answers : nat -> connect_answer) :
  forall remaining attempt,
    (1 <= remaining)%nat ->
    (attempt + remaining = max_retries + 1)%nat ->
    (forall j, (attempt <= j <= max_retries)%nat -> answers j = Refused) ->
    let '(events, result) := retry_loop svc max_retries remaining attempt answers in
    result = RaisedRefused /\ attempts events = Z.of_nat remaining.
Proof.
  induction remaining as [| remaining IH]; intros attempt Hr Hsum Href; [lia |].
  cbn [retry_loop]. rewrite (Href attempt) by lia.
  destruct (Nat.ltb_spec attempt max_retries) as [Hlt | Hge].
  - specialize (IH (S attempt)).
    destruct (retry_loop svc max_retries remaining (S attempt) answers)
      as [events result].
    destruct IH as (Hres & Hatt); try lia.
    { intros j Hj. apply Href. lia. }
    unfold attempts in *. cbn [List.filter is_attempt List.length].
    split; [assumption | lia].
  - assert (remaining = 0)%nat as -> by lia. unfold attempts. cbn. split; [reflexivity | lia].
Qed.

(** X22. When the service refuses all ten attempts, connecting raises the
    refusal after exactly 10 attempts and 45 seconds of sleep. *)
Theorem gives_up_after_ten_refusals (answers : nat -> connect_answer) :
  (forall j, (1 <= j <= 10)%nat -> answers j = Refused) ->
  let '(events, result) := connect_with_retries svc answers in
  result = RaisedRefused /\ attempts events = 10 /\ slept events = 45.
Proof.
  intros Href. unfold connect_with_retries.
  pose proof (retry_loop_gives_up 10 answers 10 1) as H.
  pose proof (retry_loop_bounds 10 10 1 answers) as B.
  destruct (retry_loop svc 10 10 1 answers) as [events result].
  destruct H as (Hres & Hatt); try lia; try assumption.
  destruct B as (_ & _ & Hslept & _); try lia.
  unfold retry_delay in Hslept. repeat split; [assumption | lia | lia].
Qed.

End Retries.

(** * Setup and cleanup *)

Section SetupCleanup.

Import Startup Props MoreProps.

Lemma connect_events_concern svc answers :
  forallb (concerns svc) (fst (connect_with_retries svc answers)) = true.
Proof.
  unfold connect_with_retries.
  pose proof (retry_loop_bounds svc 10 10 1 answers) as B.
  destruct (retry_loop svc 10 10 1 answers) as [events result].
  destruct B as (_ & _ & _ & Hall); [lia | lia |]. exact Hall.
Qed.

Lemma no_broker_attempt_in_postgres_events events k :
  forallb (concerns Postgres) events = true -> ~ In (Attempt RabbitMQ k) events.
Proof.
  intros Hall Hin. rewrite forallb_forall in Hall.
  specialize (Hall _ Hin). discriminate Hall.
Qed.

(** X23. [setup] contacts the broker only after the database has
    connected and the migrations have run: every broker attempt comes
    after the migrations in the order of events, and none is made when the
    database never connects or the migrations fail. *)
Theorem broker_is_contacted_after_migrations (queue_name : option string)
    (w : startup_world) (k : nat) :
  In (Attempt RabbitMQ k) (fst (setup queue_name w)) ->
  migrations_ok w = true
  /\ (exists j, snd (connect_with_retries Postgres (postgres_answers w))
                = GotConnection j)
  /\ exists before after,
       fst (setup queue_name w) = before ++ RunMigrations :: after
       /\ In (Attempt RabbitMQ k) after
       /\ ~ In (Attempt RabbitMQ k) before.
Proof.
  unfold setup.
  pose proof (connect_events_concern Postgres (postgres_answers w)) as Hpg.
  destruct (connect_with_retries Postgres (postgres_answers w)) as [ev_pg r_pg].
  cbn [fst] in Hpg.
  pose proof (no_broker_attempt_in_postgres_events ev_pg k Hpg) as Hno.
  cbn [snd].
  destruct r_pg as [j | | |]; cbn [fst]; try (intros Hin; contradiction).
  destruct (migrations_ok w).
  - destruct (connect_with_retries RabbitMQ (rabbitmq_answers w)) as [ev_rmq r_rmq].
    destruct r_rmq;
      [destruct (channel_ok w), (queue_declare_ok w), (basic_qos_ok w) | | |];
      cbn [negb fst app]; rewrite <- ?app_assoc; cbn [app]; intros Hin;
      (split; [reflexivity |]); (split; [eauto |]);
      eexists ev_pg, _; (split; [reflexivity |]); (split; [| assumption]);
      apply in_app_or in Hin as [Hin | Hin]; try contradiction;
      destruct Hin as [Hin | Hin]; try discriminate Hin; exact Hin.
  - cbn [fst]. intros Hin. apply in_app_or in Hin as [Hin | Hin]; [contradiction |].
    destruct Hin as [Hin | []]. discriminate Hin.
Qed.

(** X24. [setup] succeeds exactly when the database connects, the
    migrations run, the broker connects, and opening the channel,
    declaring the queue and setting the prefetch count all return. *)
Theorem setup_succeeds_iff (queue_name : option string) (w : startup_world) :
  (exists conns, snd (setup queue_name w) = SetupDone conns)
  <-> ((exists j, snd (connect_with_retries Postgres (postgres_answers w))
                  = GotConnection j)
       /\ migrations_ok w = true
       /\ (exists j, snd (connect_with_retries RabbitMQ (rabbitmq_answers w))
                     = GotConnection j)
       /\ channel_ok w = true
       /\ queue_declare_ok w = true
       /\ basic_qos_ok w = true).
Proof.
  unfold setup.
  destruct (connect_with_retries Postgres (postgres_answers w)) as [ev_pg r_pg].
  destruct (connect_with_retries RabbitMQ (rabbitmq_answers w)) as [ev_rmq r_rmq].
  cbn [snd].
  destruct r_pg, (migrations_ok w), r_rmq,
    (channel_ok w), (queue_declare_ok w), (basic_qos_ok w);
    cbn [negb snd]; split;
    try (intros [conns H]; discriminate H);
    try (intros ([j H] & H1 & [j' H2] & H3 & H4 & H5); discriminate);
    eauto 10.
Qed.

(** The end of a successful setup. *)
Lemma setup_done_shape (queue_name : option string)
    (w : startup_world) (conns : connections) :
  snd (setup queue_name w) = SetupDone conns ->
  conns = {| rmq_conn := Some true; pg_conn := Some false |}
  /\ exists before,
       fst (setup queue_name w)
       = before ++ [OpenChannel; QueueDeclare queue_name true; BasicQos 1].
Proof.
  unfold setup.
  destruct (connect_with_retries Postgres (postgres_answers w)) as [ev_pg r_pg].
  destruct (connect_with_retries RabbitMQ (rabbitmq_answers w)) as [ev_rmq r_rmq].
  destruct r_pg, (migrations_ok w), r_rmq,
    (channel_ok w), (queue_declare_ok w), (basic_qos_ok w);
    cbn [negb snd fst]; intros [= <-].
  split; [reflexivity |].
  now exists (ev_pg ++ [RunMigrations] ++ ev_rmq).
Qed.

(** X25. When [setup] succeeds it holds both connections open, and its
    last three steps are opening the channel, declaring the queue durable
    and limiting the consumer to one unacknowledged message. *)
Theorem setup_ends_with_prefetch_one (queue_name : option string)
    (w : startup_world) (conns : connections) :
  snd (setup queue_name w) = SetupDone conns ->
  conns = {| rmq_conn := Some true; pg_conn := Some false |}
  /\ exists before,
       fst (setup queue_name w)
       = before ++ [OpenChannel; QueueDeclare queue_name true; BasicQos 1].
Proof. apply setup_done_shape. Qed.

(** X26. [cleanup] closes exactly the connections that are there and
    open, leaves none open, and does nothing when run again. *)
Theorem cleanup_closes_what_is_open (c : connections) :
  (In CloseRabbitMQ (fst (cleanup c)) <-> rmq_conn c = Some true)
  /\ (In ClosePostgres (fst (cleanup c)) <-> pg_conn c = Some false)
  /\ rmq_conn (snd (cleanup c)) <> Some true
  /\ pg_conn (snd (cleanup c)) <> Some false
  /\ cleanup (snd (cleanup c)) = ([], snd (cleanup c)).
Proof.
  destruct c as [[[|] |] [[|] |]]; cbn; repeat split;
    try discriminate; try tauto;
    try (intros [H | H]; try discriminate H; try destruct H as [H | H];
         try discriminate H; tauto);
    auto.
Qed.

(** With both [close()] calls returning, the [finally] of [run] is
    [cleanup]. *)
Lemma cleanup_finally_returns (r : run_world) (c : connections) :
  rmq_close_ok r = true -> pg_close_ok r = true ->
  cleanup_finally r c = (fst (cleanup c), snd (cleanup c), false).
Proof.
  intros Hr Hp. unfold cleanup_finally. rewrite Hr, Hp.
  now rewrite !andb_false_r.
Qed.

Lemma setup_closes_nothing (queue_name : option string) (w : startup_world) :
  ~ In CloseRabbitMQ (fst (setup queue_name w))
  /\ ~ In ClosePostgres (fst (setup queue_name w)).
Proof.
  assert (Hsvc : forall svc answers e,
             In e (fst (connect_with_retries svc answers)) ->
             e <> CloseRabbitMQ /\ e <> ClosePostgres).
  { intros svc answers e Hin.
    pose proof (connect_events_concern svc answers) as Hall.
    rewrite forallb_forall in Hall. specialize (Hall _ Hin).
    split; intros ->; discriminate Hall. }
  unfold setup.
  pose proof (Hsvc Postgres (postgres_answers w)) as Hpg.
  pose proof (Hsvc RabbitMQ (rabbitmq_answers w)) as Hrmq.
  destruct (connect_with_retries Postgres (postgres_answers w)) as [ev_pg r_pg].
  destruct (connect_with_retries RabbitMQ (rabbitmq_answers w)) as [ev_rmq r_rmq].
  cbn [fst] in Hpg, Hrmq.
  assert (Hev : forall e, In e (ev_pg ++ [RunMigrations] ++ ev_rmq
                                  ++ [OpenChannel; QueueDeclare queue_name true; BasicQos 1]) ->
                          e <> CloseRabbitMQ /\ e <> ClosePostgres).
  { intros e Hin. rewrite !in_app_iff in Hin. cbn in Hin.
    destruct Hin as [Hin | [[<- | []] | [Hin | [<- | [<- | [<- | []]]]]]];
      auto; split; discriminate. }
  split; intros Hin;
    [ assert (Hbad : CloseRabbitMQ <> CloseRabbitMQ /\ CloseRabbitMQ <> ClosePostgres)
    | assert (Hbad : ClosePostgres <> CloseRabbitMQ /\ ClosePostgres <> ClosePostgres) ];
    try (now destruct Hbad as [H1 H2]; (apply H1 || apply H2));
    apply Hev; rewrite !in_app_iff; cbn;
    destruct r_pg, (migrations_ok w), r_rmq,
      (channel_ok w), (queue_declare_ok w), (basic_qos_ok w);
    cbn [negb fst] in Hin;
    rewrite ?in_app_iff in Hin; cbn in Hin; tauto.
Qed.

(** What [run] calls, leaves and lets out. *)
Lemma run_result (queue_name : option string) (r : run_world) (held : connections) :
  let '(events, conns, raised) := run queue_name r held in
  (raised = false <->
     basic_consume_ok r = true
     /\ (loop r = LoopReturned
         \/ (loop r = LoopInterrupted /\ stop_consuming_ok r = true))
     /\ (rmq_is_open r = true -> rmq_close_ok r = true)
     /\ (pg_closed r = false -> pg_close_ok r = true))
  /\ (basic_consume_ok r = false ->
      events = [BasicConsume queue_name false] /\ conns = held)
  /\ (basic_consume_ok r = true ->
      (In CloseRabbitMQ events <-> rmq_is_open r = true)
      /\ (In ClosePostgres events <->
            pg_closed r = false
            /\ (rmq_is_open r = true -> rmq_close_ok r = true))
      /\ (raised = false ->
            conns = {| rmq_conn := Some false; pg_conn := Some true |})).
Proof.
  destruct r as [[] [] [] [] [] [] []]; cbn;
    repeat match goal with
           | |- _ /\ _ => split
           | |- _ <-> _ => split
           | |- _ -> _ => intro
           | H : _ /\ _ |- _ => destruct H
           | H : _ \/ _ |- _ => destruct H
           | H : False |- _ => destruct H
           | H : true = true -> _ |- _ => specialize (H eq_refl)
           | H : false = false -> _ |- _ => specialize (H eq_refl)
           end;
    try discriminate; try reflexivity; try congruence; auto 6.
Qed.

(** X27. The process exits with status 0 exactly when [setup] succeeded,
    [basic_consume] returned, the consumer loop returned or was
    interrupted from the keyboard (and the [stop_consuming] that follows
    returned), and each [close()] that [cleanup] called returned;
    otherwise with status 1.  [cleanup] does not run after a failed
    [setup] or a failed [basic_consume]: nothing is closed then, so a
    connection opened before the failure is left to the end of the
    process.  When it runs, it closes the broker connection exactly when
    that is still open at the end of the loop, and the database connection
    exactly when that is not closed yet and closing the broker connection
    did not raise. *)
Theorem main_exit_status (queue_name : option string) (w : startup_world)
    (r : run_world) :
  let '(events, status, conns) := main queue_name w r in
  (status = 0 <->
     (exists c, snd (setup queue_name w) = SetupDone c)
     /\ basic_consume_ok r = true
     /\ (loop r = LoopReturned
         \/ (loop r = LoopInterrupted /\ stop_consuming_ok r = true))
     /\ (rmq_is_open r = true -> rmq_close_ok r = true)
     /\ (pg_closed r = false -> pg_close_ok r = true))
  /\ (status = 0 \/ status = 1)
  /\ (forall c, snd (setup queue_name w) = SetupRaised c ->
        events = fst (setup queue_name w)
        /\ ~ In ClosePostgres events /\ ~ In CloseRabbitMQ events)
  /\ (forall c, snd (setup queue_name w) = SetupDone c ->
        basic_consume_ok r = false ->
        events = fst (setup queue_name w) ++ [BasicConsume queue_name false]
        /\ ~ In ClosePostgres events /\ ~ In CloseRabbitMQ events)
  /\ (forall c, snd (setup queue_name w) = SetupDone c ->
        basic_consume_ok r = true ->
        (In CloseRabbitMQ events <-> rmq_is_open r = true)
        /\ (In ClosePostgres events <->
              pg_closed r = false
              /\ (rmq_is_open r = true -> rmq_close_ok r = true))
        /\ (status = 0 ->
              conns = {| rmq_conn := Some false; pg_conn := Some true |})).
Proof.
  unfold main.
  pose proof (setup_closes_nothing queue_name w) as [Hnr Hnp].
  destruct (setup queue_name w) as [events [conns | conns]]; cbn [fst snd] in *.
  - pose proof (run_result queue_name r conns) as Hrun.
    destruct (run queue_name r conns) as [[running conns'] raised].
    destruct Hrun as (Hraised & Hfailed & Hran).
    split; [| split; [| split; [| split]]].
    + destruct raised.
      * split; [discriminate |]. intros (_ & H). apply Hraised in H. discriminate H.
      * split; [| reflexivity]. intros _. split; [eauto |]. now apply Hraised.
    + destruct raised; auto.
    + intros c H; discriminate H.
    + intros c [= <-] Hbc. destruct (Hfailed Hbc) as [-> ->].
      split; [reflexivity |].
      split; intros Hin; apply in_app_or in Hin as [Hin | [Hin | []]];
        try discriminate Hin; auto.
    + intros c _ Hbc. destruct (Hran Hbc) as (Hrmq & Hpg & Hclosed).
      split; [| split].
      * rewrite in_app_iff. tauto.
      * rewrite in_app_iff. tauto.
      * destruct raised; [discriminate |]. intros _. now apply Hclosed.
  - split; [| split; [| split; [| split]]].
    + split; [discriminate | intros [[c H] _]; discriminate H].
    + now right.
    + intros c [= <-]. auto.
    + intros c H; discriminate H.
    + intros c H; discriminate H.
Qed.

End SetupCleanup.

Section StartupExamples.

Import Startup Props MoreProps.

Lemma connects_at_first_success_witness :
  snd (connect_with_retries Postgres (up_after 2)) = GotConnection 3
  /\ slept (fst (connect_with_retries Postgres (up_after 2))) = 10.
Proof.
  pose proof (connects_at_first_success Postgres (up_after 2) 3) as H.
  destruct (connect_with_retries Postgres (up_after 2)) as [events result].
  destruct H as (Hres & _ & Hslept).
  - lia.
  - intros j Hj. unfold up_after. destruct (Nat.leb_spec j 2); [reflexivity | lia].
  - reflexivity.
  - split; [exact Hres | exact Hslept].
Defined.

Lemma gives_up_after_ten_refusals_witness :
  snd (connect_with_retries RabbitMQ always_refused) = RaisedRefused.
Proof.
  pose proof (gives_up_after_ten_refusals RabbitMQ always_refused) as H.
  destruct (connect_with_retries RabbitMQ always_refused) as [events result].
  destruct H as (Hres & _); [reflexivity | exact Hres].
Defined.

Lemma broker_is_contacted_after_migrations_witness :
  migrations_ok broker_down = true
  /\ exists before after,
       fst (setup (Some "payments"%string) broker_down)
       = before ++ RunMigrations :: after
       /\ In (Attempt RabbitMQ 10) after.
Proof.
  destruct (broker_is_contacted_after_migrations (Some "payments"%string)
              broker_down 10)
    as (Hm & _ & before & after & Hev & Hin & _).
  { vm_compute. tauto. }
  split; [exact Hm |]. exists before, after. split; assumption.
Defined.

Lemma setup_succeeds_iff_witness :
  exists conns, snd (setup (Some "payments"%string) healthy) = SetupDone conns.
Proof.
  apply (proj2 (setup_succeeds_iff (Some "payments"%string) healthy)).
  repeat split; try (eexists; reflexivity).
Defined.

(** A queue that cannot be declared ends [setup], although both services
    are connected. *)
Example setup_fails_at_queue_declare :
  snd (setup (Some "payments"%string)
         {| postgres_answers := up_after 0; migrations_ok := true;
            rabbitmq_answers := up_after 0; channel_ok := true;
            queue_declare_ok := false; basic_qos_ok := true |})
  = SetupRaised {| rmq_conn := Some true; pg_conn := Some false |}.
Proof. reflexivity. Qed.

Lemma setup_ends_with_prefetch_one_witness :
  exists before,
    fst (setup (Some "payments"%string) healthy)
    = before ++ [OpenChannel; QueueDeclare (Some "payments"%string) true; BasicQos 1].
Proof.
  apply (setup_ends_with_prefetch_one (Some "payments"%string) healthy
           {| rmq_conn := Some true; pg_conn := Some false |}).
  reflexivity.
Defined.

(** A broker connection lost during the loop: the process exits with
    status 1, and [cleanup] closes the database connection only. *)
Lemma main_exit_status_witness :
  snd (fst (main (Some "payments"%string) healthy broker_lost)) = 1
  /\ ~ In CloseRabbitMQ (fst (fst (main (Some "payments"%string) healthy broker_lost)))
  /\ In ClosePostgres (fst (fst (main (Some "payments"%string) healthy broker_lost))).
Proof.
  pose proof (main_exit_status (Some "payments"%string) healthy broker_lost) as H.
  destruct (main (Some "payments"%string) healthy broker_lost)
    as [[events status] conns].
  destruct H as (H0 & [Hs | Hs] & _ & _ & Hran); cbn [fst snd].
  - exfalso. apply H0 in Hs as (_ & _ & [Hl | [Hl _]] & _); discriminate Hl.
  - destruct (Hran {| rmq_conn := Some true; pg_conn := Some false |}
                eq_refl eq_refl) as (Hrmq & Hpg & _).
    split; [exact Hs |]. split.
    + intros Hin. apply Hrmq in Hin. discriminate Hin.
    + apply Hpg. split; [reflexivity | intros Hopen; discriminate Hopen].
Defined.

(** The same runs, computed. *)
Example main_runs :
  main (Some "payments"%string) healthy stopped_at_cap
  = (fst (setup (Some "payments"%string) healthy)
       ++ [BasicConsume (Some "payments"%string) false; StartConsuming;
           CloseRabbitMQ; ClosePostgres],
     0, {| rmq_conn := Some false; pg_conn := Some true |})
  /\ main (Some "payments"%string) healthy broker_lost
     = (fst (setup (Some "payments"%string) healthy)
          ++ [BasicConsume (Some "payments"%string) false; StartConsuming;
              ClosePostgres],
        1, {| rmq_conn := Some false; pg_conn := Some true |})
  /\ main (Some "payments"%string) broker_down stopped_at_cap
     = (fst (setup (Some "payments"%string) broker_down), 1,
        {| rmq_conn := None; pg_conn := Some false |}).
Proof. vm_compute. repeat split. Qed.

End StartupExamples.

(** * Encoding and decoding text *)

Section Utf8.

Import Props MoreProps.

Lemma decode_encode_char (c : ascii) (rest : list Z) :
  Py.decode_utf8 (Py.utf8_of_char c ++ rest)
  = cons (Z.of_N (N_of_ascii c)) <$> Py.decode_utf8 rest.
Proof.
  destruct c as [[] [] [] [] [] [] [] []]; reflexivity.
Qed.

(** X28. Encoding a string and decoding the bytes gives the string's
    code points back: what [str.encode()] produces is always accepted by
    the strict UTF-8 decoder. *)
Theorem decode_encode (s : string) :
  Py.decode_utf8 (Py.encode s) = Some (code_points s).
Proof.
  induction s as [| c s IH]; [reflexivity |].
  cbn [Py.encode code_points]. now rewrite decode_encode_char, IH.
Qed.

End Utf8.

Section ParsingExamples.

Import Worker Props MoreProps.

(** A body that is cut short and a body that is not UTF-8: neither reaches
    the table. *)
Lemma unparsable_persists_nothing_witness :
  payments (snd (process_message loads_braces (config_with MaxNone) db_ok
                   {| delivery_tag := 9; message_id := None; body := [0xFF] |}
                   (init [] 0)))
  = []
  /\ payments_id_seq
       (snd (process_message loads_braces (config_with MaxNone) db_ok
               (fst (malformed 7)) (init [] 0)))
     = 0.
Proof.
  split.
  - apply (unparsable_persists_nothing loads_braces (config_with MaxNone) db_ok
             {| delivery_tag := 9; message_id := None; body := [0xFF] |}
             (init [] 0)).
    reflexivity.
  - apply (unparsable_persists_nothing loads_braces (config_with MaxNone) db_ok
             (fst (malformed 7)) (init [] 0)).
    reflexivity.
Defined.

End ParsingExamples.
